(** * Invitation and role reconciliation of the workspace administration app

    A shallow embedding of the invitation routes and pages:

    - the route [POST /api/invitations/create]   (the Invitation Issuer),
    - the route [POST /api/auth/confirm-email]   (the Confirmation Reconciler),
    - the page [/auth/accept-invitation]         (the Acceptance Handler),
    - the registration page [RegisterPage]       (its effect on mount),
    - the auth provider and the page [/login]    (the Session-Login Sweep),
    - the members page of the dashboard          (cancelling an invitation).

    and, around them, the mail route [POST /api/send-invitation-email], the
    members and workspace providers of the dashboard ([removeMember],
    [inviteMember], [deleteWorkspace], [resendInvitation],
    [cancelInvitation]) and the validation and sanitizing utilities.

    The relational store is explicit state: the tables are lists of rows and
    the PostgREST calls of the source ([select .. eq .. single], [insert],
    [update .. eq]) are functions on them.  The identity provider, the mail
    collaborator and the faults of the store are an environment handed to each
    handler.  The browser's localStorage is a finite map from keys to
    strings.  JavaScript strings are modelled by their UTF-8 bytes. *)

From stdpp Require Import gmap strings list fin_maps.
From Stdlib Require Import Ascii.

Local Open Scope string_scope.
Local Open Scope nat_scope.

(** ** JavaScript values used by the handlers *)

Module Js.

(** A value read from a JSON body, from localStorage or from the query
    string: a string, or absent ([undefined] for a field of the body,
    [null] for [getItem] and [get]). *)
Definition value := option string.

(** [!!x] for such a value: absent and the empty string are falsy. *)
Definition truthy (x : value) : bool :=
  match x with
  | Some s => negb (bool_decide (s = ""))
  | None => false
  end.

(** [a || b] on two such values. *)
Definition or (a b : value) : value := if truthy a then a else b.

(** [a || 'literal']. *)
Definition or_default (a : value) (d : string) : string :=
  match a with
  | Some s => if bool_decide (s = "") then d else s
  | None => d
  end.

(** [haystack.includes(needle)]. *)
Fixpoint includes (haystack needle : string) : bool :=
  String.prefix needle haystack ||
  match haystack with
  | EmptyString => false
  | String _ rest => includes rest needle
  end.

(** Template interpolation of a possibly absent field of the body; it is
    also what [encodeURIComponent] makes of [undefined] before encoding. *)
Definition interpolate (x : value) : string :=
  match x with
  | Some s => s
  | None => "undefined"
  end.

End Js.

(** ** The relational store *)

(** A row of [workspace_invitations].  [id] is the generated primary key;
    [created_at] and [registration_link] are defaults of the table that no
    handler below reads or writes. *)
Record Invitation := mkInvitation {
  inv_id : nat;
  inv_workspace_id : string;
  inv_email : string;
  inv_role : string;
  inv_status : string;
  inv_invited_by : string;
  inv_accepted_at : option string
}.

(** A row of [workspace_members]; the schema notes of the repository give
    [(workspace_id, user_id)] as its primary key. *)
Record Member := mkMember {
  mem_workspace_id : string;
  mem_user_id : string;
  mem_role : string
}.

(** A row of [user_roles]. *)
Record UserRole := mkUserRole {
  ur_user_id : string;
  ur_role : string
}.

Record Store := mkStore {
  workspace_invitations : list Invitation;
  workspace_members : list Member;
  user_roles : list UserRole;
  next_invitation_id : nat
}.

(** An HTTP reply built by [NextResponse.json]: the status, the [success]
    field and the text of [message] (on success) or [error]. *)
Record Response := Json {
  status : nat;
  success : bool;
  text : string
}.

(** The calls of the handlers to the store. *)
Module Db.

(** [.single()]: the row when exactly one row matches, otherwise no data
    (PostgREST answers PGRST116 for zero rows and for several). *)
Definition single {A} (rows : list A) : option A :=
  match rows with
  | [r] => Some r
  | _ => None
  end.

(** [from('workspace_invitations').select().eq('email', e).eq('status', st)] *)
Definition invitations_by_email_status (e st : string) (db : Store) : list Invitation :=
  filter (λ r, inv_email r = e ∧ inv_status r = st) (workspace_invitations db).

(** [from('workspace_invitations').select('*').eq('workspace_id', w).eq('email', e)] *)
Definition invitations_by_key (w e : string) (db : Store) : list Invitation :=
  filter (λ r, inv_workspace_id r = w ∧ inv_email r = e) (workspace_invitations db).

(** [from('workspace_members').select().eq('workspace_id', w).eq('user_id', u)] *)
Definition members_by_key (w u : string) (db : Store) : list Member :=
  filter (λ m, mem_workspace_id m = w ∧ mem_user_id m = u) (workspace_members db).

(** [from('user_roles').select('role').eq('user_id', u)] *)
Definition roles_of (u : string) (db : Store) : list UserRole :=
  filter (λ r, ur_user_id r = u) (user_roles db).

Definition set_members (ms : list Member) (db : Store) : Store :=
  {| workspace_invitations := workspace_invitations db;
     workspace_members := ms;
     user_roles := user_roles db;
     next_invitation_id := next_invitation_id db |}.

Definition set_invitations (rs : list Invitation) (db : Store) : Store :=
  {| workspace_invitations := rs;
     workspace_members := workspace_members db;
     user_roles := user_roles db;
     next_invitation_id := next_invitation_id db |}.

(** [from('workspace_members').insert([m])]: refused with a duplicate key
    error when the primary key is taken. *)
Definition insert_member (m : Member) (db : Store) : option Store :=
  match members_by_key (mem_workspace_id m) (mem_user_id m) db with
  | [] => Some (set_members (workspace_members db ++ [m]) db)
  | _ => None
  end.

(** The update of the reconciler, the sweep and the acceptance page:
    [update({status: 'accepted', accepted_at: now}).eq('workspace_id', w).eq('email', e)]. *)
Definition accept_row (now w e : string) (r : Invitation) : Invitation :=
  if decide (inv_workspace_id r = w ∧ inv_email r = e)
  then {| inv_id := inv_id r;
          inv_workspace_id := inv_workspace_id r;
          inv_email := inv_email r;
          inv_role := inv_role r;
          inv_status := "accepted";
          inv_invited_by := inv_invited_by r;
          inv_accepted_at := Some now |}
  else r.

Definition mark_accepted (now w e : string) (db : Store) : Store :=
  set_invitations (accept_row now w e <$> workspace_invitations db) db.

(** The update of the issuer:
    [update({role, status: 'pending', invited_by}).eq('workspace_id', w).eq('email', e)]. *)
Definition reissue_row (w e role by_ : string) (r : Invitation) : Invitation :=
  if decide (inv_workspace_id r = w ∧ inv_email r = e)
  then {| inv_id := inv_id r;
          inv_workspace_id := inv_workspace_id r;
          inv_email := inv_email r;
          inv_role := role;
          inv_status := "pending";
          inv_invited_by := by_;
          inv_accepted_at := inv_accepted_at r |}
  else r.

Definition reissue (w e role by_ : string) (db : Store) : Store :=
  set_invitations (reissue_row w e role by_ <$> workspace_invitations db) db.

(** [from('workspace_invitations').insert([{workspace_id, email, role,
    status: 'pending', invited_by}])]: the row gets a fresh [id].  The schema
    notes of the repository give the table no key besides [id], so the store
    takes a second row for a [(workspace_id, email)]; an error of the store
    (the duplicate key error of a deployment that has such a constraint
    included) is an [insert_fault] of the environment of the caller. *)
Definition insert_invitation (w e role by_ : string) (db : Store) : Store :=
  {| workspace_invitations :=
       workspace_invitations db ++
       [ {| inv_id := next_invitation_id db;
            inv_workspace_id := w;
            inv_email := e;
            inv_role := role;
            inv_status := "pending";
            inv_invited_by := by_;
            inv_accepted_at := None |} ];
     workspace_members := workspace_members db;
     user_roles := user_roles db;
     next_invitation_id := S (next_invitation_id db) |}.

(** [update({status: st}).eq('id', i)] *)
Definition set_status_row (st : string) (i : nat) (r : Invitation) : Invitation :=
  if decide (inv_id r = i)
  then {| inv_id := inv_id r;
          inv_workspace_id := inv_workspace_id r;
          inv_email := inv_email r;
          inv_role := inv_role r;
          inv_status := st;
          inv_invited_by := inv_invited_by r;
          inv_accepted_at := inv_accepted_at r |}
  else r.

Definition set_status_by_id (st : string) (i : nat) (db : Store) : Store :=
  set_invitations (set_status_row st i <$> workspace_invitations db) db.

End Db.

(** ** The identity provider *)

Record AuthUser := mkAuthUser {
  user_id : string;
  user_email : string;
  email_confirmed_at : Js.value
}.

(** The answer of [auth.admin.getUserById]. *)
Inductive GetUserReply :=
| GetUserError
| GetUserData (user : option AuthUser).

(** ** The Confirmation Reconciler: [POST /api/auth/confirm-email] *)

Module ConfirmEmail.

(** What the route finds around it: the configuration, the identity
    provider, the clock, and whether a call to the store fails in transit
    (the source logs and swallows such errors where noted). *)
Record Env := mkEnv {
  SUPABASE_SERVICE_ROLE_KEY : string;
  getUserById : string → GetUserReply;
  now : string;
  lookup_fault : bool;
  insert_fault : bool;
  update_fault : bool
}.

Record Body := mkBody {
  email : Js.value;
  userId : Js.value
}.

(** [request.json()] throws on a body that is not JSON: [None]. *)
Definition Request := option Body.

Definition POST (env : Env) (request : Request) (db : Store) : Response * Store :=
  if bool_decide (SUPABASE_SERVICE_ROLE_KEY env = "")
  then (Json 500 false "Service role key not configured", db)
  else
    match request with
    | None => (Json 500 false "Failed to process workspace membership", db)
    | Some body =>
      if negb (Js.truthy (email body)) || negb (Js.truthy (userId body))
      then (Json 400 false "Missing required fields", db)
      else
        let email := Js.interpolate (email body) in
        let userId := Js.interpolate (userId body) in
        match getUserById env userId with
        | GetUserError => (Json 500 false "Failed to get user", db)
        | GetUserData None => (Json 404 false "User not found", db)
        | GetUserData (Some user) =>
          if negb (Js.truthy (email_confirmed_at user))
          then (Json 400 false "Email not confirmed yet", db)
          else
            let inviteData :=
              if lookup_fault env then None
              else Db.single (Db.invitations_by_email_status email "pending" db) in
            match inviteData with
            | Some inviteData =>
              let member :=
                {| mem_workspace_id := inv_workspace_id inviteData;
                   mem_user_id := userId;
                   mem_role := Js.or_default (Some (inv_role inviteData)) "member" |} in
              match (if insert_fault env then None else Db.insert_member member db) with
              | None => (Json 500 false "Failed to add user to workspace", db)
              | Some db1 =>
                let db2 :=
                  if update_fault env then db1
                  else Db.mark_accepted (now env) (inv_workspace_id inviteData) email db1 in
                (Json 200 true "User added to workspace successfully", db2)
              end
            | None => (Json 404 false "No pending invitation found", db)
            end
        end
    end.

End ConfirmEmail.

(** ** URLs: [encodeURIComponent] and the query string *)

Module Uri.

Definition code (c : ascii) : nat := nat_of_ascii c.

Definition between (lo hi n : nat) : bool := ((lo <=? n) && (n <=? hi))%nat.

(** The characters [encodeURIComponent] leaves alone:
    [A-Z a-z 0-9 - _ . ! ~ * ' ( )]. *)
Definition is_unreserved (c : ascii) : bool :=
  let n := code c in
  between 65 90 n || between 97 122 n || between 48 57 n ||
  Js.includes "-_.!~*'()" (String c "").

Definition hex_digit (n : nat) : ascii :=
  if (n <? 10)%nat then ascii_of_nat (48 + n) else ascii_of_nat (55 + n).

Definition percent_byte (c : ascii) : string :=
  String "%" (String (hex_digit (code c / 16)) (String (hex_digit (code c mod 16)) "")).

(** [encodeURIComponent(s)], byte by byte over the UTF-8 form of [s]. *)
Fixpoint encodeURIComponent (s : string) : string :=
  match s with
  | EmptyString => ""
  | String c rest =>
      if is_unreserved c then String c (encodeURIComponent rest)
      else percent_byte c ++ encodeURIComponent rest
  end.

Definition hex_value (c : ascii) : option nat :=
  let n := code c in
  if between 48 57 n then Some (n - 48)
  else if between 65 70 n then Some (n - 55)
  else if between 97 102 n then Some (n - 87)
  else None.

(** Percent-decoding as [URLSearchParams] does it: a [%] followed by two
    hex digits is one byte, any other [%] stays. *)
Fixpoint percent_decode (s : string) : string :=
  match s with
  | EmptyString => ""
  | String c rest =>
      if Ascii.eqb c "%" then
        match rest with
        | String h (String l rest') =>
            match hex_value h, hex_value l with
            | Some a, Some b => String (ascii_of_nat (16 * a + b)) (percent_decode rest')
            | _, _ => String c (percent_decode rest)
            end
        | _ => String c (percent_decode rest)
        end
      else String c (percent_decode rest)
  end.

Fixpoint plus_to_space (s : string) : string :=
  match s with
  | EmptyString => ""
  | String c rest => String (if Ascii.eqb c "+" then " "%char else c) (plus_to_space rest)
  end.

(** [s.split(sep)] for a one-character separator. *)
Fixpoint split_on (sep : ascii) (s : string) : list string :=
  match s with
  | EmptyString => [""]
  | String c rest =>
      if Ascii.eqb c sep then "" :: split_on sep rest
      else match split_on sep rest with
           | piece :: pieces => String c piece :: pieces
           | [] => [String c ""]
           end
  end.

(** The text before and after the first [sep]; no [sep]: all before. *)
Fixpoint cut_at (sep : ascii) (s : string) : string * option string :=
  match s with
  | EmptyString => ("", None)
  | String c rest =>
      if Ascii.eqb c sep then ("", Some rest)
      else let '(before, after) := cut_at sep rest in (String c before, after)
  end.

Definition decode_component (s : string) : string :=
  percent_decode (plus_to_space s).

Definition parse_pair (piece : string) : string * string :=
  let '(name, value) := cut_at "=" piece in
  (decode_component name, decode_component (default "" value)).

(** The [application/x-www-form-urlencoded] parser behind
    [URLSearchParams]: split on [&], skip empty pieces, split each piece
    at its first [=], decode name and value. *)
Definition parse_query (query : string) : list (string * string) :=
  parse_pair <$> filter (λ piece, piece ≠ "") (split_on "&" query).

(** [location.search] without its [?]: what follows the first [?] of the
    URL, up to the fragment. *)
Definition search (url : string) : string :=
  let '(before_fragment, _) := cut_at "#" url in
  match cut_at "?" before_fragment with
  | (_, Some query) => query
  | (_, None) => ""
  end.

Definition searchParams (url : string) : list (string * string) :=
  parse_query (search url).

(** [searchParams.get(name)]: the value of the first pair called [name]. *)
Definition get (name : string) (params : list (string * string)) : Js.value :=
  snd <$> head (filter (λ p, fst p = name) params).

(** Every character of [s] satisfies [p]. *)
Fixpoint chars_all (p : ascii → bool) (s : string) : bool :=
  match s with
  | EmptyString => true
  | String c rest => p c && chars_all p rest
  end.

(** [c] does not occur in [s]. *)
Definition free (c : ascii) (s : string) : bool :=
  chars_all (λ x, negb (Ascii.eqb x c)) s.

(** [s] is made of unreserved characters only, as a UUID or a role name is. *)
Definition token (s : string) : bool := chars_all is_unreserved s.

(** What [encodeURIComponent] can emit. *)
Definition is_encoded (c : ascii) : bool := is_unreserved c || Ascii.eqb c "%".

End Uri.

(** ** The Invitation Issuer: [POST /api/invitations/create] *)

Module CreateInvitation.

Record SessionUser := mkSessionUser {
  su_id : string;
  su_email : string
}.

(** The answer of [/api/send-invitation-email]: a 2xx reply, another
    reply with a JSON body, no reply at all ([fetch] throws), or another
    reply whose body is not JSON ([emailResponse.json()] throws). *)
Inductive MailOutcome := MailSent | MailRejected | MailUnreachable | MailUnreadable.

Record Env := mkEnv {
  NEXT_PUBLIC_BASE_URL : string;
  (** [None] when [sessionError || !session?.user].  The route builds its
      client anew for each request, with [persistSession: false] and the
      cookies as a plain header: such a client holds no session, and [None]
      is what a request meets. *)
  session : option SessionUser;
  (** Truthiness of the data of [rpc('check_user_exists')]. *)
  check_user_exists : bool;
  role_lookup_fault : bool;
  membership_lookup_fault : bool;
  check_fault : bool;
  update_fault : bool;
  (** An error message the store answers to the insert instead of doing it. *)
  insert_fault : option string;
  create_table_fault : bool;
  retry_fault : bool;
  mail : MailOutcome
}.

Record Body := mkBody {
  email : Js.value;
  workspaceId : Js.value;
  role : Js.value;
  workspaceName : Js.value
}.

Definition Request := option Body.

(** The JSON posted to [/api/send-invitation-email]. *)
Record MailRequest := mkMailRequest {
  mail_email : string;
  mail_workspaceId : string;
  mail_role : string;
  mail_workspaceName : Js.value;
  mail_existingUser : bool;
  mail_targetLink : string
}.

Definition Outcome : Type := Response * Store * option MailRequest.

Definition base_url (env : Env) : string :=
  Js.or_default (Some (NEXT_PUBLIC_BASE_URL env)) "http://localhost:3000".

(** The acceptance deep link. *)
Definition targetLink (env : Env) (body : Body) : string :=
  base_url env ++ "/auth/accept-invitation?email="
    ++ Uri.encodeURIComponent (Js.interpolate (email body))
    ++ "&workspace_id=" ++ Js.interpolate (workspaceId body)
    ++ "&invite_role=" ++ Js.or_default (role body) "member"
    ++ "&workspace_name=" ++ Uri.encodeURIComponent (Js.interpolate (workspaceName body)).

(** The mock user of the unauthenticated branch. *)
Definition mockUser : SessionUser :=
  {| su_id := "b2587e5a-e91c-4111-a6e2-d5705505e7c3";
     su_email := "testsuperadmin@example.com" |}.

(** The insert of the invitation row and the error it reports, if any. *)
Definition insert (fault : option string) (w e r by_ : string) (db : Store)
  : option string * Store :=
  match fault with
  | Some message => (Some message, db)
  | None => (None, Db.insert_invitation w e r by_ db)
  end.

(** The ledger write of the authenticated branch: the store after it, or
    the reply that ends the request. *)
Definition upsert (env : Env) (w e r by_ : string) (db : Store) : Response + Store :=
  let existingInvitation :=
    if check_fault env then None else Db.single (Db.invitations_by_key w e db) in
  match existingInvitation with
  | Some _ => inr (if update_fault env then db else Db.reissue w e r by_ db)
  | None =>
      match insert (insert_fault env) w e r by_ db with
      | (None, db') => inr db'
      | (Some message, db') =>
          if negb (Js.includes message "duplicate key value")
          then inl (Json 500 false "Failed to create invitation record")
          else inr db'
      end
  end.

(** The ledger write of the unauthenticated branch, which also creates the
    table when the store says it does not exist. *)
Definition upsert_bypass (env : Env) (w e r by_ : string) (db : Store) : Response + Store :=
  let existingInvitation :=
    if check_fault env then None else Db.single (Db.invitations_by_key w e db) in
  match existingInvitation with
  | Some _ => inr (if update_fault env then db else Db.reissue w e r by_ db)
  | None =>
      match insert (insert_fault env) w e r by_ db with
      | (None, db') => inr db'
      | (Some message, db') =>
          if Js.includes message "does not exist" then
            if create_table_fault env
            then inl (Json 500 false "Failed to create invitation table")
            else inr (if retry_fault env then db'
                      else snd (insert None w e r by_ db'))
          else if negb (Js.includes message "duplicate key value")
          then inl (Json 500 false "Failed to create invitation record")
          else inr db'
      end
  end.

(** Building the link, posting the mail request and answering. *)
Definition send_invitation (env : Env) (body : Body) (db : Store) : Outcome :=
  let request :=
    {| mail_email := Js.interpolate (email body);
       mail_workspaceId := Js.interpolate (workspaceId body);
       mail_role := Js.or_default (role body) "member";
       mail_workspaceName := workspaceName body;
       mail_existingUser := check_user_exists env;
       mail_targetLink := targetLink env body |} in
  match mail env with
  | MailUnreachable => (Json 500 false "Failed to create invitation", db, Some request)
  | MailUnreadable => (Json 500 false "Failed to create invitation", db, Some request)
  | MailRejected => (Json 500 false "Failed to send invitation email", db, Some request)
  | MailSent =>
      (Json 200 true ("Invitation sent to " ++ Js.interpolate (email body)), db, Some request)
  end.

Definition isSuperadmin (env : Env) (user : SessionUser) (db : Store) : bool :=
  match (if role_lookup_fault env then None else Db.single (Db.roles_of (su_id user) db)) with
  | Some roleData => bool_decide (ur_role roleData = "superadmin")
  | None => false
  end.

(** [!membershipError && membership && ['admin', 'owner'].includes(membership.role)] *)
Definition may_invite (env : Env) (user : SessionUser) (w : string) (db : Store) : bool :=
  match (if membership_lookup_fault env then None
         else Db.single (Db.members_by_key w (su_id user) db)) with
  | Some membership =>
      bool_decide (mem_role membership = "admin") || bool_decide (mem_role membership = "owner")
  | None => false
  end.

Definition POST (env : Env) (request : Request) (db : Store) : Outcome :=
  match request with
  | None => (Json 500 false "Failed to create invitation", db, None)
  | Some body =>
    if negb (Js.truthy (email body)) || negb (Js.truthy (workspaceId body))
    then (Json 400 false "Missing required fields", db, None)
    else
      let e := Js.interpolate (email body) in
      let w := Js.interpolate (workspaceId body) in
      let r := Js.or_default (role body) "member" in
      match session env with
      | None =>
          match upsert_bypass env w e r (su_id mockUser) db with
          | inl reply => (reply, db, None)
          | inr db' => send_invitation env body db'
          end
      | Some user =>
          if negb (isSuperadmin env user db) && negb (may_invite env user w db)
          then (Json 403 false "Not authorized to invite members to this workspace", db, None)
          else
            match upsert env w e r (su_id user) db with
            | inl reply => (reply, db, None)
            | inr db' => send_invitation env body db'
            end
      end
  end.

End CreateInvitation.

(** ** The browser pages *)

(** [localStorage]: [getItem k] is the lookup [ls !! k], [setItem] the
    insert, [removeItem] the delete. *)
Abbreviation LocalStorage := (gmap string string).

(** The Acceptance Handler: [/auth/accept-invitation]. *)
Module AcceptInvitation.

Record InvitationData := mkInvitationData {
  email : string;
  workspaceId : string;
  inviteRole : string;
  workspaceName : string
}.

(** The effect that extracts the invitation from the URL. *)
Definition extract (params : list (string * string)) : option InvitationData :=
  let email := Uri.get "email" params in
  let workspaceId := Uri.get "workspace_id" params in
  let inviteRole := Uri.get "invite_role" params in
  let workspaceName := Uri.get "workspace_name" params in
  if Js.truthy email && Js.truthy workspaceId
  then Some {| email := Js.interpolate email;
               workspaceId := Js.interpolate workspaceId;
               inviteRole := Js.or_default inviteRole "member";
               workspaceName := Js.or_default workspaceName "Workspace" |}
  else None.

(** The answer of [supabase.auth.signUp]. *)
Inductive SignUpReply :=
| SignUpError (message : string)
| SignUpData (user : option AuthUser).

Record Env := mkEnv {
  signUp : string → string → SignUpReply;
  now : string;
  update_fault : bool
}.

Record Values := mkValues {
  values_email : string;
  password : string;
  confirmPassword : string
}.

(** What the page shows afterwards: [error] and [success]. *)
Record View := mkView {
  error : option string;
  succeeded : bool
}.

Definition onFinish (env : Env) (invitationData : option InvitationData)
    (values : Values) (ls : LocalStorage) (db : Store)
  : View * LocalStorage * Store :=
  match invitationData with
  | None => (mkView (Some "Invalid invitation data") false, ls, db)
  | Some invitationData =>
    if negb (bool_decide (password values = confirmPassword values))
    then (mkView (Some "Passwords do not match") false, ls, db)
    else
      match signUp env (values_email values) (password values) with
      | SignUpError message =>
          (mkView (Some (Js.or_default (Some message) "Failed to accept invitation")) false, ls, db)
      | SignUpData user =>
          let ls' :=
            match user with
            | Some user =>
                <["pending_confirmation_email" := values_email values]>
                  (<["pending_confirmation_workspace_id" := workspaceId invitationData]>
                     (<["pending_confirmation_user_id" := user_id user]> ls))
            | None => ls
            end in
          let db' :=
            if update_fault env then db
            else Db.mark_accepted (now env) (workspaceId invitationData) (values_email values) db in
          (mkView None true, ls', db')
      end
  end.

End AcceptInvitation.

(** The registration page ([RegisterPage]): its effect stores the link's
    parameters for the sweep. *)
Module RegisterPage.

Definition set_if_present (key : string) (v : Js.value) (ls : LocalStorage) : LocalStorage :=
  if Js.truthy v then <[key := Js.interpolate v]> ls else ls.

Definition useEffect (params : list (string * string)) (ls : LocalStorage) : LocalStorage :=
  let email := Uri.get "email" params in
  let workspaceId := Uri.get "workspace_id" params in
  let inviteRole := Uri.get "invite_role" params in
  let workspaceName := Uri.get "workspace_name" params in
  <["process_pending_invitation" := "true"]>
    (set_if_present "pending_invitation_workspace_name" workspaceName
      (set_if_present "pending_invitation_role" inviteRole
        (set_if_present "pending_invitation_workspace_id" workspaceId
          (set_if_present "pending_invitation_email" email
            (<["is_registration_page" := "true"]> ls))))).

End RegisterPage.

(** Cancelling on the members page:
    [update({status: 'cancelled'}).eq('id', invitationId)]. *)
Module MembersPage.

Definition handleCancelInvitation (fault : bool) (invitationId : nat) (db : Store) : Store :=
  if fault then db else Db.set_status_by_id "cancelled" invitationId db.

End MembersPage.

(** The auth provider of the app: its [signIn] runs a sweep of its own
    before the login page goes on.  (The provider runs the same sweep from
    its auth listener; that second, concurrent run is not modelled.) *)
Module AuthContext.

(** The answer of [supabase.auth.signInWithPassword]. *)
Inductive SignInReply :=
| SignInError
| SignInData (user : option AuthUser).

Record Env := mkEnv {
  signInWithPassword : string → string → SignInReply;
  (** [window.location.search], parsed. *)
  location_search : list (string * string);
  (** The [user] state of the provider at the time of the call. *)
  user : option AuthUser;
  now : string;
  member_check_fault : bool;
  insert_fault : bool;
  update_fault : bool
}.

(** The five [removeItem] calls of the provider's sweep. *)
Definition flags : list string :=
  [ "process_pending_invitation"; "pending_workspace_id";
    "pending_invitation_workspace_id"; "pending_invite_role";
    "pending_invitation_role" ].

Definition clear_flags (ls : LocalStorage) : LocalStorage :=
  foldl (λ acc key, delete key acc) ls flags.

(** The result is the boolean the source returns, the storage and the
    store. *)
Definition processPendingInvitations (env : Env) (userId : string)
    (ls : LocalStorage) (db : Store) : bool * LocalStorage * Store :=
  let shouldProcessInvitation :=
    bool_decide (ls !! "process_pending_invitation" = Some "true") in
  let urlParams := location_search env in
  let urlInvitation := bool_decide (Uri.get "invitation" urlParams = Some "true") in
  let urlWorkspaceId := Uri.get "workspace_id" urlParams in
  let urlInviteRole := Uri.get "invite_role" urlParams in
  let ls :=
    if urlInvitation && Js.truthy urlWorkspaceId then
      RegisterPage.set_if_present "pending_invite_role" urlInviteRole
        (<["pending_workspace_id" := Js.interpolate urlWorkspaceId]>
           (<["process_pending_invitation" := "true"]> ls))
    else ls in
  if negb shouldProcessInvitation && negb urlInvitation then (false, ls, db)
  else
    let workspaceId :=
      Js.or (Js.or urlWorkspaceId (ls !! "pending_workspace_id"))
        (ls !! "pending_invitation_workspace_id") in
    (* [inviteRole] starts as [urlInviteRole || 'member'], so the stored
       roles that follow in the source are never taken. *)
    let inviteRole :=
      Js.or_default
        (Js.or (Js.or (Some (Js.or_default urlInviteRole "member"))
                  (ls !! "pending_invite_role"))
           (ls !! "pending_invitation_role"))
        "member" in
    if negb (Js.truthy workspaceId) then (false, ls, db)
    else
      let workspaceId := Js.interpolate workspaceId in
      match (if member_check_fault env then None
             else Db.single (Db.members_by_key workspaceId userId db)) with
      | Some _ => (true, clear_flags ls, db)
      | None =>
          let member :=
            {| mem_workspace_id := workspaceId;
               mem_user_id := userId;
               mem_role := inviteRole |} in
          match (if insert_fault env then None else Db.insert_member member db) with
          | None => (false, ls, db)
          | Some db1 =>
              let db2 :=
                if update_fault env then db1
                else Db.mark_accepted (now env) workspaceId
                       (Js.interpolate (user_email <$> user env)) db1 in
              (true, clear_flags ls, db2)
          end
      end.

(** [signIn]: whether it reports an error, and what its sweep did. *)
Definition signIn (env : Env) (email password : string)
    (ls : LocalStorage) (db : Store) : bool * LocalStorage * Store :=
  match signInWithPassword env email password with
  | SignInError => (true, ls, db)
  | SignInData None => (false, ls, db)
  | SignInData (Some user) =>
      let '(_, ls', db') := processPendingInvitations env (user_id user) ls db in
      (false, ls', db')
  end.

End AuthContext.

(** The Session-Login Sweep: [/login]. *)
Module LoginPage.

Record Env := mkEnv {
  (** The provider behind [useAuth().signIn]. *)
  auth : AuthContext.Env;
  (** The user of [supabase.auth.getUser()] after the sign-in. *)
  getUser : option AuthUser;
  now : string;
  member_check_fault : bool;
  insert_fault : bool;
  update_fault : bool;
  (** The server behind [/api/auth/confirm-email]: [fetch] throws when it
      cannot be reached, and [confirmResponse.json()] throws on an error
      reply that is not JSON. *)
  confirm_unreachable : bool;
  confirm_env : ConfirmEmail.Env
}.

Record Values := mkValues {
  email : string;
  password : string
}.

Inductive Result :=
| ShowError (message : string)
| Redirect (path : string).

(** The effect on mount: invitation parameters of the URL go to storage. *)
Definition useEffect (params : list (string * string)) (ls : LocalStorage) : LocalStorage :=
  let isInvitation := bool_decide (Uri.get "invitation" params = Some "true") in
  let urlWorkspaceId := Uri.get "workspace_id" params in
  if isInvitation && Js.truthy urlWorkspaceId then
    RegisterPage.set_if_present "pending_invite_role" (Uri.get "invite_role" params)
      (<["pending_workspace_id" := Js.interpolate urlWorkspaceId]>
         (<["process_pending_invitation" := "true"]> ls))
  else ls.

(** The eight [removeItem] calls that end the sweep. *)
Definition markers : list string :=
  [ "process_pending_invitation"; "pending_workspace_id";
    "pending_invitation_workspace_id"; "pending_invite_role";
    "pending_invitation_role"; "pending_confirmation_user_id";
    "pending_confirmation_email"; "pending_confirmation_workspace_id" ].

Definition clear_markers (ls : LocalStorage) : LocalStorage :=
  foldl (λ acc key, delete key acc) ls markers.

(** What the sweep reads from storage after the sign-in. *)
Record Intent := mkIntent {
  shouldProcessInvitation : bool;
  workspaceId : Js.value;
  inviteRole : string;
  pendingConfirmationUserId : Js.value;
  pendingConfirmationEmail : Js.value
}.

Definition read_intent (values : Values) (ls : LocalStorage) : Intent :=
  let pendingConfirmationEmail := ls !! "pending_confirmation_email" in
  let pendingConfirmationWorkspaceId := ls !! "pending_confirmation_workspace_id" in
  let confirmed_for_user :=
    bool_decide (pendingConfirmationEmail = Some (email values))
    && Js.truthy pendingConfirmationWorkspaceId in
  {| shouldProcessInvitation :=
       confirmed_for_user
       || bool_decide (ls !! "process_pending_invitation" = Some "true");
     workspaceId :=
       if confirmed_for_user then pendingConfirmationWorkspaceId
       else Js.or (ls !! "pending_workspace_id") (ls !! "pending_invitation_workspace_id");
     inviteRole :=
       Js.or_default
         (Js.or (ls !! "pending_invite_role") (ls !! "pending_invitation_role")) "member";
     pendingConfirmationUserId := ls !! "pending_confirmation_user_id";
     pendingConfirmationEmail := pendingConfirmationEmail |}.

(** The regular branch: membership written straight from the stored
    parameters, unless the user is a member already. *)
Definition regular (env : Env) (user : AuthUser) (workspaceId inviteRole : string)
    (db : Store) : Store :=
  match (if member_check_fault env then None
         else Db.single (Db.members_by_key workspaceId (user_id user) db)) with
  | Some _ => db
  | None =>
      let member :=
        {| mem_workspace_id := workspaceId;
           mem_user_id := user_id user;
           mem_role := inviteRole |} in
      match (if insert_fault env then None else Db.insert_member member db) with
      | None => db
      | Some db1 =>
          if update_fault env then db1
          else Db.mark_accepted (now env) workspaceId (user_email user) db1
      end
  end.

(** The confirmed-email branch: the reconciler is called and its answer
    is only logged. *)
Definition confirm (env : Env) (values : Values) (user : AuthUser) (db : Store) : Store :=
  let body :=
    {| ConfirmEmail.email := Some (email values);
       ConfirmEmail.userId := Some (user_id user) |} in
  snd (ConfirmEmail.POST (confirm_env env) (Some body) db).

(** What [onFinish] does once the sign-in went through. *)
Definition sweep (env : Env) (values : Values) (ls : LocalStorage) (db : Store)
  : Result * LocalStorage * Store :=
  let intent := read_intent values ls in
  if shouldProcessInvitation intent && Js.truthy (workspaceId intent) then
    match getUser env with
    | None => (Redirect "/dashboard", ls, db)
    | Some user =>
        if Js.truthy (pendingConfirmationUserId intent)
           && bool_decide (pendingConfirmationEmail intent = Some (email values))
        then
          if confirm_unreachable env
          then (ShowError "An error occurred during login", ls, db)
          else (Redirect "/dashboard", clear_markers ls, confirm env values user db)
        else
          (Redirect "/dashboard", clear_markers ls,
           regular env user (Js.interpolate (workspaceId intent)) (inviteRole intent) db)
    end
  else (Redirect "/dashboard", ls, db).

Definition onFinish (env : Env) (values : Values) (ls : LocalStorage) (db : Store)
  : Result * LocalStorage * Store :=
  let '(signInError, ls, db) :=
    AuthContext.signIn (auth env) (email values) (password values) ls db in
  if signInError then (ShowError "Invalid email or password", ls, db)
  else sweep env values ls db.

End LoginPage.

(** ** A concrete workspace used by the examples *)

Module Scenario.

Definition workspace : string := "ws-1".
Definition invitee : string := "new@x.com".

Definition admin_membership : Member :=
  {| mem_workspace_id := workspace; mem_user_id := "admin-1"; mem_role := "admin" |}.

Definition pending_invitation : Invitation :=
  {| inv_id := 1;
     inv_workspace_id := workspace;
     inv_email := invitee;
     inv_role := "admin";
     inv_status := "pending";
     inv_invited_by := "root-1";
     inv_accepted_at := None |}.

(** One superadmin, one workspace admin, one pending invitation. *)
Definition db_pending : Store :=
  {| workspace_invitations := [pending_invitation];
     workspace_members := [admin_membership];
     user_roles := [ {| ur_user_id := "root-1"; ur_role := "superadmin" |};
                     {| ur_user_id := "admin-1"; ur_role := "user" |} ];
     next_invitation_id := 2 |}.

(** The same workspace before anybody was invited. *)
Definition db_empty_ledger : Store := Db.set_invitations [] db_pending.

Definition user_unconfirmed : AuthUser :=
  {| user_id := "user-1"; user_email := invitee; email_confirmed_at := None |}.

Definition user_confirmed : AuthUser :=
  {| user_id := "user-1"; user_email := invitee;
     email_confirmed_at := Some "2025-05-01T10:00:00.000Z" |}.

Definition provider (user : AuthUser) (id : string) : GetUserReply :=
  if decide (id = user_id user) then GetUserData (Some user) else GetUserError.

(** The reconciler with everything working. *)
Definition confirm_env (user : AuthUser) : ConfirmEmail.Env :=
  {| ConfirmEmail.SUPABASE_SERVICE_ROLE_KEY := "service-role-key";
     ConfirmEmail.getUserById := provider user;
     ConfirmEmail.now := "2025-05-01T10:05:00.000Z";
     ConfirmEmail.lookup_fault := false;
     ConfirmEmail.insert_fault := false;
     ConfirmEmail.update_fault := false |}.

(** The reconciler when the ledger update is lost. *)
Definition confirm_env_update_lost (user : AuthUser) : ConfirmEmail.Env :=
  {| ConfirmEmail.SUPABASE_SERVICE_ROLE_KEY := "service-role-key";
     ConfirmEmail.getUserById := provider user;
     ConfirmEmail.now := "2025-05-01T10:05:00.000Z";
     ConfirmEmail.lookup_fault := false;
     ConfirmEmail.insert_fault := false;
     ConfirmEmail.update_fault := true |}.

Definition confirm_request : ConfirmEmail.Request :=
  Some {| ConfirmEmail.email := Some invitee; ConfirmEmail.userId := Some "user-1" |}.

(** The issuer as called by [session], with the mail answering [mail]. *)
Definition create_env (session : option CreateInvitation.SessionUser)
    (mail : CreateInvitation.MailOutcome) : CreateInvitation.Env :=
  {| CreateInvitation.NEXT_PUBLIC_BASE_URL := "https://app.zesst.ca";
     CreateInvitation.session := session;
     CreateInvitation.check_user_exists := false;
     CreateInvitation.role_lookup_fault := false;
     CreateInvitation.membership_lookup_fault := false;
     CreateInvitation.check_fault := false;
     CreateInvitation.update_fault := false;
     CreateInvitation.insert_fault := None;
     CreateInvitation.create_table_fault := false;
     CreateInvitation.retry_fault := false;
     CreateInvitation.mail := mail |}.

Definition create_body (role : string) : CreateInvitation.Body :=
  {| CreateInvitation.email := Some invitee;
     CreateInvitation.workspaceId := Some workspace;
     CreateInvitation.role := Some role;
     CreateInvitation.workspaceName := Some "Research & Development" |}.

Definition root : CreateInvitation.SessionUser :=
  {| CreateInvitation.su_id := "root-1"; CreateInvitation.su_email := "root@x.com" |}.

(** The admin of the workspace. *)
Definition admin : CreateInvitation.SessionUser :=
  {| CreateInvitation.su_id := "admin-1"; CreateInvitation.su_email := "admin@x.com" |}.

(** A member whose role is [owner]. *)
Definition owner : CreateInvitation.SessionUser :=
  {| CreateInvitation.su_id := "owner-1"; CreateInvitation.su_email := "owner@x.com" |}.

Definition db_with_owner : Store :=
  Db.set_members
    [ {| mem_workspace_id := workspace; mem_user_id := "owner-1"; mem_role := "owner" |} ]
    db_empty_ledger.

(** The provider on a fresh login: nobody signed in yet, a plain URL. *)
Definition auth_env (user : AuthUser) : AuthContext.Env :=
  {| AuthContext.signInWithPassword := λ _ _, AuthContext.SignInData (Some user);
     AuthContext.location_search := [];
     AuthContext.user := None;
     AuthContext.now := "2025-05-01T10:05:00.000Z";
     AuthContext.member_check_fault := false;
     AuthContext.insert_fault := false;
     AuthContext.update_fault := false |}.

Definition login_env (user : AuthUser) : LoginPage.Env :=
  {| LoginPage.auth := auth_env user;
     LoginPage.getUser := Some user;
     LoginPage.now := "2025-05-01T10:05:00.000Z";
     LoginPage.member_check_fault := false;
     LoginPage.insert_fault := false;
     LoginPage.update_fault := false;
     LoginPage.confirm_unreachable := false;
     LoginPage.confirm_env := confirm_env user |}.

Definition login_values : LoginPage.Values :=
  {| LoginPage.email := invitee; LoginPage.password := "Secret123!" |}.

Definition accept_env (user : AuthUser) : AcceptInvitation.Env :=
  {| AcceptInvitation.signUp := λ _ _, AcceptInvitation.SignUpData (Some user);
     AcceptInvitation.now := "2025-05-01T09:55:00.000Z";
     AcceptInvitation.update_fault := false |}.

Definition accept_values : AcceptInvitation.Values :=
  {| AcceptInvitation.values_email := invitee;
     AcceptInvitation.password := "Secret123!";
     AcceptInvitation.confirmPassword := "Secret123!" |}.

(** The deep link mailed for [pending_invitation]. *)
Definition link : string :=
  CreateInvitation.targetLink (create_env (Some root) CreateInvitation.MailSent)
    (create_body "admin").

(** A second pending invitation of the same email, in another workspace. *)
Definition second_invitation : Invitation :=
  {| inv_id := 2;
     inv_workspace_id := "ws-2";
     inv_email := invitee;
     inv_role := "member";
     inv_status := "pending";
     inv_invited_by := "root-1";
     inv_accepted_at := None |}.

Definition db_two_pending : Store :=
  {| workspace_invitations := [pending_invitation; second_invitation];
     workspace_members := workspace_members db_pending;
     user_roles := user_roles db_pending;
     next_invitation_id := 3 |}.

(** A plain member of the workspace, with the global role [user]. *)
Definition plain_member : CreateInvitation.SessionUser :=
  {| CreateInvitation.su_id := "member-1"; CreateInvitation.su_email := "member@x.com" |}.

Definition db_with_member : Store :=
  {| workspace_invitations := [];
     workspace_members :=
       [ admin_membership;
         {| mem_workspace_id := workspace; mem_user_id := "member-1"; mem_role := "member" |} ];
     user_roles := [ {| ur_user_id := "root-1"; ur_role := "superadmin" |};
                     {| ur_user_id := "member-1"; ur_role := "user" |} ];
     next_invitation_id := 1 |}.

(** Storage as the acceptance page leaves it for the new, unconfirmed user. *)
Definition ls_after_acceptance : LocalStorage :=
  snd (fst (AcceptInvitation.onFinish (accept_env user_unconfirmed)
              (AcceptInvitation.extract (Uri.searchParams link))
              accept_values ∅ db_pending)).

End Scenario.

(** ** Vocabulary of the properties *)

(** The primary key of [workspace_members] holds. *)
Definition members_unique (db : Store) : Prop :=
  ∀ w u, length (Db.members_by_key w u db) ≤ 1.

(** The natural key of the ledger holds for [(w, e)]. *)
Definition ledger_unique_at (w e : string) (db : Store) : Prop :=
  length (Db.invitations_by_key w e db) ≤ 1.

(** The memberships of workspace [w]. *)
Definition memberships_in (w : string) (db : Store) : list Member :=
  filter (λ m, mem_workspace_id m = w) (workspace_members db).

(** The pending ledger rows of [e] outside workspace [w]. *)
Definition pending_elsewhere (w e : string) (db : Store) : list Invitation :=
  filter (λ r, inv_workspace_id r ≠ w)
    (Db.invitations_by_email_status e "pending" db).

(** The caller passes the gate of the issuer: no session (the mock user
    stands in), a superadmin, or a member allowed to invite. *)
Definition issuer_admits (env : CreateInvitation.Env) (w : string) (db : Store) : bool :=
  match CreateInvitation.session env with
  | None => true
  | Some user =>
      CreateInvitation.isSuperadmin env user db || CreateInvitation.may_invite env user w db
  end.

(** The [invited_by] the issuer writes. *)
Definition issuer_id (env : CreateInvitation.Env) : string :=
  CreateInvitation.su_id (default CreateInvitation.mockUser (CreateInvitation.session env)).

(** No call of the issuer to the ledger fails in transit. *)
Definition ledger_writes_succeed (env : CreateInvitation.Env) : Prop :=
  CreateInvitation.check_fault env = false
  ∧ CreateInvitation.update_fault env = false
  ∧ CreateInvitation.insert_fault env = None.

(** What a ledger write leaves behind for its key: one pending row with
    the role and the inviter of the call, the other tables untouched. *)
Definition written (w e r by_ : string) (db db' : Store) : Prop :=
  (∃ row, Db.invitations_by_key w e db' = [row]
          ∧ inv_role row = r ∧ inv_status row = "pending" ∧ inv_invited_by row = by_)
  ∧ workspace_members db' = workspace_members db
  ∧ user_roles db' = user_roles db.

(** * More of the code *)

(** ** The mail route: [POST /api/send-invitation-email] *)

Module SendInvitationEmail.

(** The answer of the SendGrid API: a 2xx reply, another reply, or none
    ([fetch] throws). *)
Inductive SendGridOutcome := Accepted | Refused | Unreachable.

Record Env := mkEnv {
  NEXT_PUBLIC_BASE_URL : string;
  SENDGRID_FROM_EMAIL : string;
  sendgrid : SendGridOutcome
}.

Record Body := mkBody {
  email : Js.value;
  workspaceId : Js.value;
  role : Js.value;
  workspaceName : Js.value;
  existingUser : bool;
  targetLink : Js.value
}.

Definition Request := option Body.

(** What is posted to [https://api.sendgrid.com/v3/mail/send]. *)
Record SendGridRequest := mkSendGridRequest {
  to : string;
  from : string;
  subject : string;
  text_plain : string;
  text_html : string
}.

Definition base_url (env : Env) : string :=
  Js.or_default (Some (NEXT_PUBLIC_BASE_URL env)) "http://localhost:3000".

(** The link the route builds when the caller sent none. *)
Definition default_link (env : Env) (body : Body) : string :=
  base_url env ++ "/auth/accept-invitation?email="
    ++ Uri.encodeURIComponent (Js.interpolate (email body))
    ++ "&workspace_id=" ++ Js.interpolate (workspaceId body)
    ++ "&invite_role=" ++ Js.or_default (role body) "member"
    ++ "&workspace_name=" ++ Uri.encodeURIComponent (Js.interpolate (workspaceName body)).

Definition invitationLink (env : Env) (body : Body) : string :=
  Js.or_default (targetLink body) (default_link env body).

Definition text (env : Env) (body : Body) : string :=
  "You've been invited to join " ++ Js.interpolate (workspaceName body)
    ++ " as a " ++ Js.or_default (role body) "member"
    ++ ". Click the link to set up your password: " ++ invitationLink env body.

(** The double quote of the HTML attributes. *)
Definition dq : string := String (ascii_of_nat 34) "".

Definition html (env : Env) (body : Body) : string :=
  "
            <div style=" ++ dq ++ "font-family: Arial, sans-serif; max-width: 600px; margin: 0 auto;" ++ dq ++ ">
              <div style=" ++ dq ++ "background-color: #faad14; padding: 20px; text-align: center; color: white;" ++ dq ++ ">
                <h1>Set Up Your ZESST Account</h1>
              </div>
              <div style=" ++ dq ++ "padding: 20px; border: 1px solid #e8e8e8; border-top: none;" ++ dq ++ ">
                <p>Hello,</p>
                <p>You've been invited to join the <strong>" ++ Js.interpolate (workspaceName body) ++ "</strong> workspace as a <strong>" ++ Js.or_default (role body) "member" ++ "</strong>.</p>
                <p>This is step 1 of 2 in the account setup process:</p>
                <ol>
                  <li><strong>Set up your password</strong> (this email)</li>
                  <li>Confirm your email address (you'll receive another email after completing step 1)</li>
                </ol>
                <p>Click the button below to set up your password:</p>
                <div style=" ++ dq ++ "text-align: center; margin: 30px 0;" ++ dq ++ ">
                  <a href=" ++ dq ++ invitationLink env body ++ dq ++ " style=" ++ dq ++ "background-color: #faad14; color: white; padding: 12px 24px; text-decoration: none; border-radius: 4px; font-weight: bold;" ++ dq ++ ">
                    Set Up Password
                  </a>
                </div>
                <p>After setting your password, you'll receive a second email to confirm your email address.</p>
                <p>This link will expire in 7 days.</p>
                <p>If you have any questions, please contact your workspace administrator.</p>
                <p>Best regards,<br>The ZESST Team</p>
              </div>
            </div>
          ".

Definition POST (env : Env) (request : Request) : Response * option SendGridRequest :=
  match request with
  | None => (Json 500 false "Failed to send invitation email", None)
  | Some body =>
    if negb (Js.truthy (email body)) || negb (Js.truthy (workspaceId body))
    then (Json 400 false "Missing required fields", None)
    else
      let message :=
        {| to := Js.interpolate (email body);
           from := Js.or_default (Some (SENDGRID_FROM_EMAIL env)) "info@zesst.ca";
           subject := "You've been invited to join " ++ Js.interpolate (workspaceName body);
           text_plain := text env body;
           text_html := html env body |} in
      match sendgrid env with
      | Unreachable => (Json 500 false "Failed to send invitation email", Some message)
      | Refused => (Json 500 false "Failed to send invitation email", Some message)
      | Accepted =>
          (Json 200 true ("Invitation sent to " ++ Js.interpolate (email body)), Some message)
      end
  end.

(** The body the issuer posts, as this route reads it. *)
Definition of_issuer (request : CreateInvitation.MailRequest) : Body :=
  {| email := Some (CreateInvitation.mail_email request);
     workspaceId := Some (CreateInvitation.mail_workspaceId request);
     role := Some (CreateInvitation.mail_role request);
     workspaceName := CreateInvitation.mail_workspaceName request;
     existingUser := CreateInvitation.mail_existingUser request;
     targetLink := Some (CreateInvitation.mail_targetLink request) |}.

End SendInvitationEmail.

(** ** The dashboard: members and invitations *)

Module MembersContext.

(** The [composite_id] the provider gives a member row:
    [`${member.workspace_id}-${member.user_id}`]. *)
Definition composite_id (m : Member) : string :=
  mem_workspace_id m ++ "-" ++ mem_user_id m.

(** [from('workspace_members').delete().eq('workspace_id', w).eq('user_id', u)] *)
Definition delete_member (w u : string) (db : Store) : Store :=
  Db.set_members
    (filter (λ m, ¬ (mem_workspace_id m = w ∧ mem_user_id m = u)) (workspace_members db))
    db.

(** [removeMember]: the two ids are the first two pieces of
    [compositeId.split('-')]; a missing piece is [undefined].  The result is
    the [success] field and the store. *)
Definition removeMember (fault : bool) (compositeId : string) (db : Store) : bool * Store :=
  let pieces := Uri.split_on "-" compositeId in
  let workspace_id := pieces !! 0 in
  let user_id := pieces !! 1 in
  if fault then (false, db)
  else (true, delete_member (Js.interpolate workspace_id) (Js.interpolate user_id) db).

Record Env := mkEnv {
  (** The selected workspace, or [null]. *)
  currentWorkspace : Js.value;
  (** [workspace?.name] for the selected workspace. *)
  workspace_name : Js.value;
  (** [fetch] throws when the issuer cannot be reached. *)
  unreachable : bool;
  issuer : CreateInvitation.Env
}.

(** What [inviteMember] returns: [{success: false, error: 'No workspace
    selected'}], the fields of the issuer's reply, or
    [{success: false, error}] for a thrown error. *)
Inductive Outcome :=
| NoWorkspace
| Answer (reply : Response)
| Thrown.

Definition invite_body (env : Env) (email : string) : CreateInvitation.Body :=
  {| CreateInvitation.email := Some email;
     CreateInvitation.workspaceId := currentWorkspace env;
     CreateInvitation.role := Some "member";
     CreateInvitation.workspaceName := Some (Js.or_default (workspace_name env) "Unknown") |}.

Definition inviteMember (env : Env) (email : string) (db : Store) : Outcome * Store :=
  if negb (Js.truthy (currentWorkspace env)) then (NoWorkspace, db)
  else if unreachable env then (Thrown, db)
  else
    let '(reply, db', _) :=
      CreateInvitation.POST (issuer env) (Some (invite_body env email)) db in
    (Answer reply, db').

End MembersContext.

Module WorkspaceContext.

(** A row of [workspaces]. *)
Record Workspace := mkWorkspace {
  ws_id : string;
  ws_name : string;
  is_default : bool;
  is_superadmin_workspace : bool
}.

(** [workspaces.find(w => w.id === id)] *)
Definition find_workspace (id : string) (workspaces : list Workspace) : option Workspace :=
  head (filter (λ w, ws_id w = id) workspaces).

(** What [deleteWorkspace] returns: [{success: true}], the refusal
    [Cannot delete default or SuperAdmin workspaces], or the error of the
    store. *)
Inductive DeleteOutcome :=
| Deleted
| Protected
| DeleteFailed.

(** [deleteWorkspace]: the guard reads the provider's list [workspaces],
    the delete goes to the table; on success the list drops the id too.
    The result is the outcome, the table and the list. *)
Definition deleteWorkspace (fault : bool) (workspaces : list Workspace)
    (workspaceId : string) (table : list Workspace)
  : DeleteOutcome * list Workspace * list Workspace :=
  let workspace := find_workspace workspaceId workspaces in
  if default false (is_default <$> workspace)
     || default false (is_superadmin_workspace <$> workspace)
  then (Protected, table, workspaces)
  else if fault then (DeleteFailed, table, workspaces)
  else (Deleted,
        filter (λ w, ws_id w ≠ workspaceId) table,
        filter (λ w, ws_id w ≠ workspaceId) workspaces).

(** [cancelInvitation]: [update({status: 'expired'}).eq('id', invitationId)]. *)
Definition cancelInvitation (fault : bool) (invitationId : nat) (db : Store) : bool * Store :=
  if fault then (false, db)
  else (true, Db.set_status_by_id "expired" invitationId db).

Record Env := mkEnv {
  (** The provider's lists, as last fetched. *)
  invitations : list Invitation;
  workspaces : list Workspace;
  unreachable : bool;
  update_fault : bool;
  issuer : CreateInvitation.Env
}.

(** What [resendInvitation] returns: [{success: false, error: 'Invitation
    not found'}], [{success: true}], or [{success: false, error}] with the
    issuer's error or with what [fetch] threw. *)
Inductive ResendOutcome :=
| NotFound
| Resent
| ResendFailed (error : string)
| ResendThrown.

Definition resend_body (env : Env) (invitation : Invitation) : CreateInvitation.Body :=
  {| CreateInvitation.email := Some (inv_email invitation);
     CreateInvitation.workspaceId := Some (inv_workspace_id invitation);
     CreateInvitation.role := Some (inv_role invitation);
     CreateInvitation.workspaceName :=
       Some (Js.or_default
               (ws_name <$> find_workspace (inv_workspace_id invitation) (workspaces env))
               "Unknown Workspace") |}.

(** [resendInvitation]: the issuer is called again for the row found in
    the provider's list, then the row is set to [pending] by its id (that
    update also stamps [updated_at], a column outside [Invitation]). *)
Definition resendInvitation (env : Env) (invitationId : nat) (db : Store)
  : ResendOutcome * Store :=
  match head (filter (λ inv, inv_id inv = invitationId) (invitations env)) with
  | None => (NotFound, db)
  | Some invitation =>
      if unreachable env then (ResendThrown, db)
      else
        let '(reply, db1, _) :=
          CreateInvitation.POST (issuer env) (Some (resend_body env invitation)) db in
        if negb (success reply)
        then (ResendFailed (Js.or_default (Some (text reply)) "Failed to resend invitation"), db1)
        else (Resent,
              if update_fault env then db1
              else Db.set_status_by_id "pending" invitationId db1)
  end.

End WorkspaceContext.

(** ** Input validation and sanitizing *)

Module Validation.

(** The UTF-16 code units a byte of well-formed UTF-8 stands for: one for
    an ASCII byte and for the lead byte of a two- or three-byte sequence,
    two for the lead byte of a four-byte sequence (a surrogate pair), none
    for a continuation byte. *)
Definition units (c : ascii) : nat :=
  let n := Uri.code c in
  if n <? 128 then 1 else if n <? 192 then 0 else if n <? 240 then 1 else 2.

(** [s.length] *)
Fixpoint length (s : string) : nat :=
  match s with
  | EmptyString => 0
  | String c rest => units c + length rest
  end.

(** [/[class]/.test(s)]: some character of [s] is in the class. *)
Fixpoint some_char (p : ascii → bool) (s : string) : bool :=
  match s with
  | EmptyString => false
  | String c rest => p c || some_char p rest
  end.

Definition is_upper (c : ascii) : bool := Uri.between 65 90 (Uri.code c).
Definition is_lower (c : ascii) : bool := Uri.between 97 122 (Uri.code c).
Definition is_digit (c : ascii) : bool := Uri.between 48 57 (Uri.code c).

(** The class of the last test of [validatePassword]; the double quote is
    added by its code. *)
Definition is_special (c : ascii) : bool :=
  Js.includes "!@#$%^&*()_+-=[]{};':\|,.<>/?" (String c "")
  || Ascii.eqb c (ascii_of_nat 34).

Record Verdict := mkVerdict {
  isValid : bool;
  message : string
}.

Definition validatePassword (password : string) : Verdict :=
  if bool_decide (password = "") then mkVerdict false "Password is required"
  else if length password <? 8
  then mkVerdict false "Password must be at least 8 characters long"
  else if negb (some_char is_upper password)
  then mkVerdict false "Password must contain at least one uppercase letter"
  else if negb (some_char is_lower password)
  then mkVerdict false "Password must contain at least one lowercase letter"
  else if negb (some_char is_digit password)
  then mkVerdict false "Password must contain at least one number"
  else if negb (some_char is_special password)
  then mkVerdict false "Password must contain at least one special character"
  else mkVerdict true "Password is valid".

(** The class [[a-zA-Z0-9_-]] of [validateUsername]. *)
Definition is_username_char (c : ascii) : bool :=
  is_lower c || is_upper c || is_digit c || Ascii.eqb c "_" || Ascii.eqb c "-".

Definition validateUsername (username : string) : Verdict :=
  if bool_decide (username = "") then mkVerdict false "Username is required"
  else if length username <? 3
  then mkVerdict false "Username must be at least 3 characters long"
  else if 30 <? length username
  then mkVerdict false "Username must be at most 30 characters long"
  else if negb (Uri.chars_all is_username_char username)
  then mkVerdict false "Username can only contain letters, numbers, underscores, and hyphens"
  else mkVerdict true "Username is valid".

End Validation.

Module Sanitize.

(** [s.replace(/c/g, by)] for one character [c]. *)
Fixpoint replace_all (c : ascii) (by_ : string) (s : string) : string :=
  match s with
  | EmptyString => ""
  | String x rest =>
      (if Ascii.eqb x c then by_ else String x "") ++ replace_all c by_ rest
  end.

Definition quote : ascii := ascii_of_nat 34.

Definition sanitizeString (input : string) : string :=
  if bool_decide (input = "") then ""
  else
    replace_all "'" "&#039;"
      (replace_all quote "&quot;"
         (replace_all ">" "&gt;"
            (replace_all "<" "&lt;"
               (replace_all "&" "&amp;" input)))).

Definition sanitizeUserContent (content : string) : string :=
  if bool_decide (content = "") then "" else sanitizeString content.

(** Lower case of an ASCII letter, as the [i] flag compares. *)
Definition lower (c : ascii) : ascii :=
  if Validation.is_upper c then ascii_of_nat (Uri.code c + 32) else c.

Fixpoint lower_string (s : string) : string :=
  match s with
  | EmptyString => ""
  | String c rest => String (lower c) (lower_string rest)
  end.

(** [/^prefix/i.test(s)] for a lower-case literal [prefix]. *)
Definition starts_with_ci (prefix s : string) : bool :=
  String.prefix prefix (lower_string s).

Definition sanitizeUrl (url : string) : string :=
  if bool_decide (url = "") then ""
  else if starts_with_ci "javascript:" url then ""
  else if starts_with_ci "data:" url && negb (starts_with_ci "data:image/" url) then ""
  else url.

(** One pass that escapes each character on its own. *)
Definition escape_char (c : ascii) : string :=
  if Ascii.eqb c "&" then "&amp;"
  else if Ascii.eqb c "<" then "&lt;"
  else if Ascii.eqb c ">" then "&gt;"
  else if Ascii.eqb c quote then "&quot;"
  else if Ascii.eqb c "'" then "&#039;"
  else String c "".

Fixpoint escape (s : string) : string :=
  match s with
  | EmptyString => ""
  | String c rest => escape_char c ++ escape rest
  end.

End Sanitize.

(** ** Vocabulary of the further properties *)

(** What a call of the issuer may do to the store, for the key [(w, e)] of
    its request: memberships and global roles stay, and the ledger rows of
    other keys stay. *)
Definition issuer_frame (w e : string) (db db' : Store) : Prop :=
  workspace_members db' = workspace_members db
  ∧ user_roles db' = user_roles db
  ∧ (∀ w' e', ¬ (w' = w ∧ e' = e) →
              Db.invitations_by_key w' e' db' = Db.invitations_by_key w' e' db).

(** The membership the reconciler writes for a ledger row and a user. *)
Definition membership_of (inviteData : Invitation) (userId : string) : Member :=
  {| mem_workspace_id := inv_workspace_id inviteData;
     mem_user_id := userId;
     mem_role := Js.or_default (Some (inv_role inviteData)) "member" |}.

(** ** More of the concrete workspace *)

Module Samples.

Definition issuer_env : CreateInvitation.Env :=
  Scenario.create_env (Some Scenario.root) CreateInvitation.MailSent.

(** What the issuer posts to the mail route for the invitation of the
    scenario. *)
Definition mail_request : CreateInvitation.MailRequest :=
  {| CreateInvitation.mail_email := Scenario.invitee;
     CreateInvitation.mail_workspaceId := Scenario.workspace;
     CreateInvitation.mail_role := "admin";
     CreateInvitation.mail_workspaceName := Some "Research & Development";
     CreateInvitation.mail_existingUser := false;
     CreateInvitation.mail_targetLink := Scenario.link |}.

Definition mail_env : SendInvitationEmail.Env :=
  {| SendInvitationEmail.NEXT_PUBLIC_BASE_URL := "https://app.zesst.ca";
     SendInvitationEmail.SENDGRID_FROM_EMAIL := "";
     SendInvitationEmail.sendgrid := SendInvitationEmail.Accepted |}.

(** A membership whose ids have no hyphen, and one with the ids of the
    scenario. *)
Definition short_member : Member :=
  {| mem_workspace_id := "ws1"; mem_user_id := "u1"; mem_role := "member" |}.

Definition db_short : Store :=
  Db.set_members [short_member; Scenario.admin_membership] Scenario.db_pending.

Definition members_env : MembersContext.Env :=
  {| MembersContext.currentWorkspace := Some Scenario.workspace;
     MembersContext.workspace_name := Some "Research & Development";
     MembersContext.unreachable := false;
     MembersContext.issuer := issuer_env |}.

Definition default_workspace : WorkspaceContext.Workspace :=
  {| WorkspaceContext.ws_id := "ws-0";
     WorkspaceContext.ws_name := "Default";
     WorkspaceContext.is_default := true;
     WorkspaceContext.is_superadmin_workspace := false |}.

Definition research : WorkspaceContext.Workspace :=
  {| WorkspaceContext.ws_id := Scenario.workspace;
     WorkspaceContext.ws_name := "Research & Development";
     WorkspaceContext.is_default := false;
     WorkspaceContext.is_superadmin_workspace := false |}.

Definition workspaces : list WorkspaceContext.Workspace := [default_workspace; research].

Definition workspace_env : WorkspaceContext.Env :=
  {| WorkspaceContext.invitations := [Scenario.pending_invitation];
     WorkspaceContext.workspaces := workspaces;
     WorkspaceContext.unreachable := false;
     WorkspaceContext.update_fault := false;
     WorkspaceContext.issuer := issuer_env |}.

(** Storage as the registration page leaves it for the link of the
    scenario. *)
Definition ls_after_registration : LocalStorage :=
  RegisterPage.useEffect (Uri.searchParams Scenario.link) ∅.

(** The store after the invitee of the scenario was reconciled. *)
Definition db_reconciled : Store :=
  snd (ConfirmEmail.POST (Scenario.confirm_env Scenario.user_confirmed)
         Scenario.confirm_request Scenario.db_pending).

(** The issuer when its lookup of the existing invitation fails. *)
Definition issuer_env_lookup_lost : CreateInvitation.Env :=
  {| CreateInvitation.NEXT_PUBLIC_BASE_URL := "https://app.zesst.ca";
     CreateInvitation.session := Some Scenario.root;
     CreateInvitation.check_user_exists := false;
     CreateInvitation.role_lookup_fault := false;
     CreateInvitation.membership_lookup_fault := false;
     CreateInvitation.check_fault := true;
     CreateInvitation.update_fault := false;
     CreateInvitation.insert_fault := None;
     CreateInvitation.create_table_fault := false;
     CreateInvitation.retry_fault := false;
     CreateInvitation.mail := CreateInvitation.MailSent |}.

(** A member as the store has it, with UUIDs for both ids. *)
Definition uuid_member : Member :=
  {| mem_workspace_id := "0b9c1f6e-8a52-4d3b-9e57-2f6a1c4d7e90";
     mem_user_id := "b2587e5a-e91c-4111-a6e2-d5705505e7c3";
     mem_role := "member" |}.

Definition db_uuid : Store := Db.set_members [uuid_member] Scenario.db_pending.

(** The login page when the confirm-email route cannot be reached. *)
Definition login_env_unreachable (user : AuthUser) : LoginPage.Env :=
  {| LoginPage.auth := Scenario.auth_env user;
     LoginPage.getUser := Some user;
     LoginPage.now := "2025-05-01T10:05:00.000Z";
     LoginPage.member_check_fault := false;
     LoginPage.insert_fault := false;
     LoginPage.update_fault := false;
     LoginPage.confirm_unreachable := true;
     LoginPage.confirm_env := Scenario.confirm_env user |}.

End Samples.

(** * Properties *)

(** ** Running the model on the scenario *)

Example encodeURIComponent_email :
  Uri.encodeURIComponent "new+user@x.com" = "new%2Buser%40x.com".
Proof. reflexivity. Qed.

Example searchParams_sample :
  Uri.searchParams "http://h/auth/accept-invitation?email=a%40x.com&workspace_id=w1#top"
  = [("email", "a@x.com"); ("workspace_id", "w1")].
Proof. vm_compute. reflexivity. Qed.

Example link_sample :
  Scenario.link =
  "https://app.zesst.ca/auth/accept-invitation?email=new%40x.com&workspace_id=ws-1&invite_role=admin&workspace_name=Research%20%26%20Development".
Proof. vm_compute. reflexivity. Qed.

(** The scenario of the specification: reconcile before the confirmation
    is refused, after it the membership exists and the row is accepted. *)
Example reconcile_scenario :
  ConfirmEmail.POST (Scenario.confirm_env Scenario.user_unconfirmed)
    Scenario.confirm_request Scenario.db_pending
  = (Json 400 false "Email not confirmed yet", Scenario.db_pending)
  ∧ ConfirmEmail.POST (Scenario.confirm_env Scenario.user_confirmed)
      Scenario.confirm_request Scenario.db_pending
    = (Json 200 true "User added to workspace successfully",
       {| workspace_invitations :=
            [ {| inv_id := 1; inv_workspace_id := "ws-1"; inv_email := "new@x.com";
                 inv_role := "admin"; inv_status := "accepted"; inv_invited_by := "root-1";
                 inv_accepted_at := Some "2025-05-01T10:05:00.000Z" |} ];
          workspace_members :=
            [ Scenario.admin_membership;
              {| mem_workspace_id := "ws-1"; mem_user_id := "user-1"; mem_role := "admin" |} ];
          user_roles := user_roles Scenario.db_pending;
          next_invitation_id := 2 |}).
Proof. split; vm_compute; reflexivity. Qed.

(** ** Lemmas on the store *)

Section StoreLemmas.

Lemma truthy_Some (s : string) : s ≠ "" → Js.truthy (Some s) = true.
Proof. intros Hs. unfold Js.truthy. by rewrite bool_decide_eq_false_2. Qed.

Lemma truthy_interpolate (v : Js.value) :
  Js.truthy v = true → v = Some (Js.interpolate v) ∧ Js.interpolate v ≠ "".
Proof.
  destruct v as [s|]; simpl; [|done].
  case_bool_decide; [done|]. by intros _.
Qed.

Lemma or_default_nonempty (s d : string) : s ≠ "" → Js.or_default (Some s) d = s.
Proof. intros Hs. unfold Js.or_default. by rewrite bool_decide_eq_false_2. Qed.

(** [.single()] yields nothing when two different rows match. *)
Lemma single_two {A} (rows : list A) (r1 r2 : A) :
  r1 ∈ rows → r2 ∈ rows → r1 ≠ r2 → Db.single rows = None.
Proof.
  intros H1 H2 Hne.
  destruct rows as [|a [|b rows]]; simpl; try done.
  apply list_elem_of_singleton in H1, H2. congruence.
Qed.

Lemma single_Some {A} (rows : list A) (r : A) :
  Db.single rows = Some r ↔ rows = [r].
Proof.
  destruct rows as [|a [|b rows]]; simpl; split; intros H; by simplify_eq.
Qed.

Lemma single_nil_or_many {A} (rows : list A) :
  Db.single rows = None ↔ length rows ≠ 1.
Proof.
  destruct rows as [|a [|b rows]]; simpl; split; intros H; try done; lia.
Qed.

End StoreLemmas.

(** ** The Confirmation Reconciler *)

Section Reconciler.

Import ConfirmEmail.

Variable env : Env.
Variables e uid : string.
Variable user : AuthUser.

Hypothesis key_configured : SUPABASE_SERVICE_ROLE_KEY env ≠ "".
Hypothesis e_given : e ≠ "".
Hypothesis uid_given : uid ≠ "".
Hypothesis user_found : getUserById env uid = GetUserData (Some user).

Let request : Request := Some {| email := Some e; userId := Some uid |}.

(** The route up to the confirmation check, for a well-formed request. *)
Lemma POST_unfold db :
  POST env request db =
  if negb (Js.truthy (email_confirmed_at user))
  then (Json 400 false "Email not confirmed yet", db)
  else
    match (if lookup_fault env then None
           else Db.single (Db.invitations_by_email_status e "pending" db)) with
    | Some inviteData =>
        match (if insert_fault env then None
               else Db.insert_member
                      {| mem_workspace_id := inv_workspace_id inviteData;
                         mem_user_id := uid;
                         mem_role := Js.or_default (Some (inv_role inviteData)) "member" |}
                      db) with
        | None => (Json 500 false "Failed to add user to workspace", db)
        | Some db1 =>
            (Json 200 true "User added to workspace successfully",
             if update_fault env then db1
             else Db.mark_accepted (now env) (inv_workspace_id inviteData) e db1)
        end
    | None => (Json 404 false "No pending invitation found", db)
    end.
Proof.
  unfold POST, request; simpl.
  rewrite (bool_decide_eq_false_2 _ key_configured).
  rewrite (bool_decide_eq_false_2 _ e_given), (bool_decide_eq_false_2 _ uid_given); simpl.
  rewrite user_found. reflexivity.
Qed.

(** C6.  A user whose email is not confirmed gets [Email not confirmed yet]
    (status 400), and the store (memberships and ledger) is unchanged. *)
Theorem C6_unconfirmed_email_is_refused db :
  Js.truthy (email_confirmed_at user) = false →
  POST env request db = (Json 400 false "Email not confirmed yet", db).
Proof. intros Hflag. rewrite POST_unfold, Hflag. reflexivity. Qed.

(** C9.  The pending invitation is looked up by email alone with
    [.single()]: when the email has pending invitations in two workspaces
    the lookup yields nothing, the route answers [No pending invitation
    found] (status 404) and the store is unchanged, so no membership is
    created for either workspace. *)
Theorem C9_two_pending_workspaces_block_reconcile db (r1 r2 : Invitation) :
  Js.truthy (email_confirmed_at user) = true →
  r1 ∈ workspace_invitations db → r2 ∈ workspace_invitations db →
  inv_email r1 = e → inv_status r1 = "pending" →
  inv_email r2 = e → inv_status r2 = "pending" →
  inv_workspace_id r1 ≠ inv_workspace_id r2 →
  POST env request db = (Json 404 false "No pending invitation found", db).
Proof.
  intros Hflag Hin1 Hin2 He1 Hs1 He2 Hs2 Hws.
  rewrite POST_unfold, Hflag; simpl.
  assert (Db.single (Db.invitations_by_email_status e "pending" db) = None) as ->.
  { apply (single_two _ r1 r2).
    - apply list_elem_of_filter; auto.
    - apply list_elem_of_filter; auto.
    - congruence. }
  by destruct (lookup_fault env).
Qed.

(** With a membership already there for the workspace of the pending
    invitation, the insert is refused and the route reports a failure; the
    invitation stays pending, so a retry meets the same refusal. *)
Lemma POST_existing_membership_fails db (inviteData : Invitation) (m : Member) :
  Js.truthy (email_confirmed_at user) = true →
  lookup_fault env = false →
  Db.invitations_by_email_status e "pending" db = [inviteData] →
  m ∈ Db.members_by_key (inv_workspace_id inviteData) uid db →
  POST env request db = (Json 500 false "Failed to add user to workspace", db).
Proof.
  intros Hflag Hlookup Hrows Hm.
  rewrite POST_unfold, Hflag, Hlookup, Hrows; simpl.
  unfold Db.insert_member; simpl.
  destruct (Db.members_by_key _ _ db); [by apply not_elem_of_nil in Hm|].
  by destruct (insert_fault env).
Qed.

End Reconciler.

(** ** What the reconciler can do to the store *)

Section ReconcilerEffects.

Import ConfirmEmail.

Lemma members_by_key_insert (m : Member) (db db1 : Store) (w u : string) :
  Db.insert_member m db = Some db1 →
  Db.members_by_key w u db1 =
  (Db.members_by_key w u db ++
   if decide (mem_workspace_id m = w ∧ mem_user_id m = u) then [m] else [])%list.
Proof.
  unfold Db.insert_member.
  destruct (Db.members_by_key _ _ db) eqn:Hkey; [|done].
  intros [= <-]. unfold Db.members_by_key; simpl.
  rewrite filter_app. by f_equal.
Qed.

Lemma insert_member_fresh (m : Member) (db db1 : Store) :
  Db.insert_member m db = Some db1 →
  Db.members_by_key (mem_workspace_id m) (mem_user_id m) db = [].
Proof.
  unfold Db.insert_member.
  by destruct (Db.members_by_key _ _ db).
Qed.

Lemma insert_member_invitations (m : Member) (db db1 : Store) :
  Db.insert_member m db = Some db1 →
  workspace_invitations db1 = workspace_invitations db.
Proof.
  unfold Db.insert_member.
  destruct (Db.members_by_key _ _ db); [|done]. by intros [= <-].
Qed.

(** The primary key survives an insert. *)
Lemma insert_member_unique (m : Member) (db db1 : Store) :
  Db.insert_member m db = Some db1 → members_unique db → members_unique db1.
Proof.
  intros Hins Huniq w u.
  rewrite (members_by_key_insert _ _ _ _ _ Hins), length_app.
  case_decide as Hk; simpl.
  - destruct Hk as [<- <-]. rewrite (insert_member_fresh _ _ _ Hins). simpl; lia.
  - specialize (Huniq w u). lia.
Qed.

Lemma mark_accepted_members (t w e : string) (db : Store) :
  workspace_members (Db.mark_accepted t w e db) = workspace_members db.
Proof. reflexivity. Qed.

Lemma accept_row_key (t w e : string) (r : Invitation) :
  inv_workspace_id (Db.accept_row t w e r) = inv_workspace_id r
  ∧ inv_email (Db.accept_row t w e r) = inv_email r.
Proof. unfold Db.accept_row. by case_decide. Qed.

(** Accepting the rows of one workspace leaves those of another alone. *)
Lemma mark_accepted_other_key (t w w' e e' : string) (db : Store) :
  w' ≠ w →
  Db.invitations_by_key w e (Db.mark_accepted t w' e' db) = Db.invitations_by_key w e db.
Proof.
  intros Hne. unfold Db.invitations_by_key, Db.mark_accepted; simpl.
  induction (workspace_invitations db) as [|r rows IH]; [done|].
  rewrite fmap_cons, !filter_cons, IH.
  destruct (accept_row_key t w' e' r) as [Hw He].
  rewrite Hw, He.
  case_decide as Hk; [|done].
  f_equal. unfold Db.accept_row. case_decide as Hk'; [|done].
  destruct Hk as [Hk _], Hk' as [Hk' _]. congruence.
Qed.

(** Either the route leaves the store alone, or it found exactly one pending
    row for the email of the request, inserted the membership it names and
    answered with success. *)
Lemma POST_effect (env : Env) (request : Request) (db : Store) :
  snd (POST env request db) = db
  ∨ ∃ e uid inviteData db1,
      request = Some {| email := Some e; userId := Some uid |}
      ∧ Db.invitations_by_email_status e "pending" db = [inviteData]
      ∧ Db.insert_member
          {| mem_workspace_id := inv_workspace_id inviteData;
             mem_user_id := uid;
             mem_role := Js.or_default (Some (inv_role inviteData)) "member" |} db
        = Some db1
      ∧ POST env request db =
        (Json 200 true "User added to workspace successfully",
         if update_fault env then db1
         else Db.mark_accepted (now env) (inv_workspace_id inviteData) e db1).
Proof.
  unfold POST.
  case_bool_decide; [by left|].
  destruct request as [[em ui]|]; [|by left]; simpl.
  destruct (negb (Js.truthy em) || negb (Js.truthy ui)) eqn:Hfields; [by left|].
  apply orb_false_elim in Hfields as [He Hu].
  apply negb_false_iff in He, Hu.
  destruct em as [e|]; [|done]. destruct ui as [uid|]; [|done]. simpl.
  destruct (getUserById env uid) as [|[user|]]; try by left.
  destruct (negb (Js.truthy (email_confirmed_at user))); [by left|].
  destruct (lookup_fault env); [by left|].
  destruct (Db.single _) as [inviteData|] eqn:Hsingle; [|by left].
  apply single_Some in Hsingle.
  destruct (insert_fault env); [by left|].
  destruct (Db.insert_member _ db) as [db1|] eqn:Hins; [|by left].
  right. by exists e, uid, inviteData, db1.
Qed.

(** The reconciler never breaks the primary key of [workspace_members]:
    however often it is called, a pair [(workspace_id, user_id)] has at
    most one membership row. *)
Lemma POST_members_unique (env : Env) (request : Request) (db : Store) :
  members_unique db → members_unique (snd (POST env request db)).
Proof.
  intros Huniq.
  destruct (POST_effect env request db) as [->|(e & uid & inv & db1 & _ & _ & Hins & ->)];
    [done|].
  simpl. pose proof (insert_member_unique _ _ _ Hins Huniq) as Huniq1.
  destruct (update_fault env); [done|].
  intros w u. apply (Huniq1 w u).
Qed.

End ReconcilerEffects.

(** ** The two steps of the commit: membership, then ledger *)

Section TwoStepCommit.

Import ConfirmEmail.

(** C1.  Reconcile called twice for a confirmed user with a pending
    invitation leaves one membership row, but the second call does not
    treat the existing membership as success: when the row is still pending
    (here the first call's ledger update was lost, which the route only
    logs) the insert is refused and the route answers
    [Failed to add user to workspace] (status 500); when the first call did
    mark the row accepted, the second call answers
    [No pending invitation found] (status 404, success false). *)
Theorem C1_second_reconcile_reports_failure :
  let user := Scenario.user_confirmed in
  let '(reply1, db1) :=
    POST (Scenario.confirm_env_update_lost user) Scenario.confirm_request Scenario.db_pending in
  let '(reply2, db2) := POST (Scenario.confirm_env user) Scenario.confirm_request db1 in
  let '(reply1', db1') :=
    POST (Scenario.confirm_env user) Scenario.confirm_request Scenario.db_pending in
  let '(reply2', db2') := POST (Scenario.confirm_env user) Scenario.confirm_request db1' in
  reply1 = Json 200 true "User added to workspace successfully"
  ∧ Db.invitations_by_email_status Scenario.invitee "pending" db1 = [Scenario.pending_invitation]
  ∧ reply2 = Json 500 false "Failed to add user to workspace"
  ∧ db2 = db1
  ∧ length (Db.members_by_key Scenario.workspace "user-1" db2) = 1
  ∧ reply1' = Json 200 true "User added to workspace successfully"
  ∧ reply2' = Json 404 false "No pending invitation found"
  ∧ length (Db.members_by_key Scenario.workspace "user-1" db2') = 1.
Proof. vm_compute. repeat split; reflexivity. Qed.

(** Whatever the ledger holds, once the sign-up answered and the update
    went through, every row of the invitation is [accepted]: the page does
    not wait for the confirmation. *)
Lemma acceptance_marks_accepted (env : AcceptInvitation.Env)
    (data : AcceptInvitation.InvitationData) (values : AcceptInvitation.Values)
    (ls : LocalStorage) (db : Store) (user : option AuthUser) :
  AcceptInvitation.password values = AcceptInvitation.confirmPassword values →
  AcceptInvitation.signUp env (AcceptInvitation.values_email values)
    (AcceptInvitation.password values) = AcceptInvitation.SignUpData user →
  AcceptInvitation.update_fault env = false →
  Forall (λ r, inv_status r = "accepted")
    (Db.invitations_by_key (AcceptInvitation.workspaceId data)
       (AcceptInvitation.values_email values)
       (snd (AcceptInvitation.onFinish env (Some data) values ls db))).
Proof.
  intros Hpw Hup Hfault. unfold AcceptInvitation.onFinish.
  rewrite (bool_decide_eq_true_2 _ Hpw), Hup, Hfault; simpl.
  apply Forall_forall. intros r [[Hw He] Hin]%list_elem_of_filter.
  apply list_elem_of_fmap in Hin as (r0 & -> & _).
  destruct (accept_row_key (AcceptInvitation.now env) (AcceptInvitation.workspaceId data)
              (AcceptInvitation.values_email values) r0) as [Hw0 He0].
  rewrite Hw0 in Hw. rewrite He0 in He.
  unfold Db.accept_row. by rewrite decide_True.
Qed.

(** C2.  The acceptance page marks the invitation [accepted] as soon as
    the sign-up returns, while the new identity is still unconfirmed; the
    reconciler, called after the confirmation, then finds no pending row
    and creates no membership. *)
Theorem C2_acceptance_page_accepts_before_confirmation :
  let data := AcceptInvitation.extract (Uri.searchParams Scenario.link) in
  let '(view, ls, db1) :=
    AcceptInvitation.onFinish (Scenario.accept_env Scenario.user_unconfirmed)
      data Scenario.accept_values ∅ Scenario.db_pending in
  let '(reply, db2) :=
    POST (Scenario.confirm_env Scenario.user_confirmed) Scenario.confirm_request db1 in
  email_confirmed_at Scenario.user_unconfirmed = None
  ∧ inv_status <$> workspace_invitations Scenario.db_pending = ["pending"]
  ∧ inv_status <$> workspace_invitations db1 = ["accepted"]
  ∧ view = AcceptInvitation.mkView None true
  ∧ reply = Json 404 false "No pending invitation found"
  ∧ Db.members_by_key Scenario.workspace "user-1" db2 = [].
Proof. vm_compute. repeat split; reflexivity. Qed.

End TwoStepCommit.

(** ** Cancelled invitations *)

Section Cancelled.

Import ConfirmEmail.

Variables (w e : string) (i : nat) (db : Store).

(** The natural key: the rows of [(w, e)] are the row [i]. *)
Hypothesis natural_key :
  ∀ r, r ∈ workspace_invitations db →
       inv_workspace_id r = w → inv_email r = e → inv_id r = i.

Let db1 : Store := MembersPage.handleCancelInvitation false i db.

Lemma set_status_row_key (st : string) (r : Invitation) :
  inv_workspace_id (Db.set_status_row st i r) = inv_workspace_id r
  ∧ inv_email (Db.set_status_row st i r) = inv_email r
  ∧ inv_id (Db.set_status_row st i r) = inv_id r.
Proof. unfold Db.set_status_row. by case_decide. Qed.

Lemma cancelled_rows (r : Invitation) :
  r ∈ workspace_invitations db1 →
  inv_workspace_id r = w → inv_email r = e → inv_status r = "cancelled".
Proof.
  unfold db1; simpl. intros Hin Hw He.
  apply list_elem_of_fmap in Hin as (r0 & -> & Hin0).
  destruct (set_status_row_key "cancelled" r0) as (Hw0 & He0 & _).
  rewrite Hw0 in Hw. rewrite He0 in He.
  pose proof (natural_key r0 Hin0 Hw He) as Hid.
  unfold Db.set_status_row. by rewrite decide_True.
Qed.

(** A row that is pending after the cancellation was pending before it,
    and belongs to another workspace. *)
Lemma pending_after_cancel (r : Invitation) :
  r ∈ Db.invitations_by_email_status e "pending" db1 →
  inv_workspace_id r ≠ w ∧ r ∈ pending_elsewhere w e db.
Proof.
  intros Hin. apply list_elem_of_filter in Hin as [[He Hst] Hin].
  assert (inv_workspace_id r ≠ w) as Hw.
  { intros Hw. pose proof (cancelled_rows r Hin Hw He). congruence. }
  split; [done|].
  unfold db1 in Hin; simpl in Hin.
  apply list_elem_of_fmap in Hin as (r0 & Hr & Hin0).
  unfold Db.set_status_row in Hr. case_decide; subst r; [done|].
  apply list_elem_of_filter. split; [done|].
  by apply list_elem_of_filter.
Qed.

Lemma memberships_in_insert (m : Member) (d d1 : Store) :
  Db.insert_member m d = Some d1 → mem_workspace_id m ≠ w →
  memberships_in w d1 = memberships_in w d.
Proof.
  unfold Db.insert_member. destruct (Db.members_by_key _ _ d); [|done].
  intros [= <-] Hne. unfold memberships_in; simpl.
  rewrite filter_app, filter_cons_False, filter_nil by done.
  apply app_nil_r.
Qed.

Variable env : Env.
Variable uid : string.
Variable user : AuthUser.

Hypothesis key_configured : SUPABASE_SERVICE_ROLE_KEY env ≠ "".
Hypothesis e_given : e ≠ "".
Hypothesis uid_given : uid ≠ "".
Hypothesis user_found : getUserById env uid = GetUserData (Some user).
Hypothesis user_confirmed : Js.truthy (email_confirmed_at user) = true.

Let request : Request := Some {| email := Some e; userId := Some uid |}.

(** C3 (amended).  After the admin cancelled the invitation of [(w, e)],
    a reconciliation through the confirmation route for [e] creates no
    membership in [w] and leaves the cancelled row as it is; when [e] has
    no pending invitation in another workspace the route answers
    [No pending invitation found] (status 404) and changes nothing. *)
Theorem C3_callback_ignores_cancelled_invitation :
  let '(reply, db2) := POST env request db1 in
  memberships_in w db2 = memberships_in w db1
  ∧ Db.invitations_by_key w e db2 = Db.invitations_by_key w e db1
  ∧ Forall (λ r, inv_status r = "cancelled") (Db.invitations_by_key w e db2)
  ∧ (pending_elsewhere w e db = [] →
     reply = Json 404 false "No pending invitation found" ∧ db2 = db1).
Proof.
  destruct (POST env request db1) as [reply db2] eqn:Hpost.
  assert (Forall (λ r, inv_status r = "cancelled") (Db.invitations_by_key w e db1)) as Hcancelled.
  { apply Forall_forall. intros r Hin.
    apply list_elem_of_filter in Hin as [[Hw He] Hin]. by apply cancelled_rows. }
  assert (pending_elsewhere w e db = [] →
          reply = Json 404 false "No pending invitation found" ∧ db2 = db1) as Hnone.
  { intros Hnone.
    rewrite (POST_unfold env e uid user key_configured e_given uid_given user_found) in Hpost.
    rewrite user_confirmed in Hpost; simpl in Hpost.
    assert (Db.invitations_by_email_status e "pending" db1 = []) as Hempty.
    { destruct (Db.invitations_by_email_status e "pending" db1) as [|r rows] eqn:Hrows; [done|].
      assert (r ∈ Db.invitations_by_email_status e "pending" db1) as Hr
        by (rewrite Hrows; left).
      apply pending_after_cancel in Hr as [_ Hin].
      rewrite Hnone in Hin. by apply not_elem_of_nil in Hin. }
    rewrite Hempty in Hpost; simpl in Hpost.
    destruct (lookup_fault env); by simplify_eq. }
  destruct (POST_effect env request db1)
    as [Hsame|(e0 & uid0 & inv & d1 & Hreq & Hrows & Hins & Heq)].
  - rewrite Hpost in Hsame; simpl in Hsame; subst db2. done.
  - rewrite Hpost in Heq. injection Hreq as <- <-.
    assert (inv ∈ Db.invitations_by_email_status e "pending" db1) as Hinv
      by (rewrite Hrows; left).
    apply pending_after_cancel in Hinv as [Hw _].
    assert (memberships_in w db2 = memberships_in w db1
            ∧ Db.invitations_by_key w e db2 = Db.invitations_by_key w e db1) as [Hm Hi].
    { injection Heq as _ ->.
      pose proof (memberships_in_insert _ _ _ Hins Hw) as Hm.
      pose proof (insert_member_invitations _ _ _ Hins) as Hi.
      destruct (update_fault env).
      - split; [done|]. unfold Db.invitations_by_key. by rewrite Hi.
      - split; [done|]. rewrite mark_accepted_other_key by done.
        unfold Db.invitations_by_key. by rewrite Hi. }
    split; [done|]. split; [done|]. split; [by rewrite Hi|done].
Qed.

End Cancelled.

(** ** The Session-Login Sweep *)

Section Sweep.

Import LoginPage.

Lemma clear_markers_lookup (ls : LocalStorage) (key : string) :
  key ∈ markers → clear_markers ls !! key = None.
Proof.
  intros Hkey. unfold clear_markers, markers in *; simpl.
  repeat (apply elem_of_cons in Hkey as [->|Hkey]; [by simplify_map_eq|]).
  by apply not_elem_of_nil in Hkey.
Qed.

(** The sweep removes nothing but its eight markers. *)
Lemma clear_markers_lookup_other (ls : LocalStorage) (key : string) :
  key ∉ markers → clear_markers ls !! key = ls !! key.
Proof.
  intros Hkey. unfold clear_markers, markers in *; simpl.
  rewrite !lookup_delete_ne; [done|..]; intros <-; apply Hkey; set_solver.
Qed.

(** With the markers gone the sweep finds nothing to process. *)
Lemma read_intent_cleared (values : Values) (ls : LocalStorage) :
  shouldProcessInvitation (read_intent values (clear_markers ls)) = false.
Proof.
  unfold read_intent; simpl.
  rewrite !clear_markers_lookup by (unfold markers; set_solver).
  reflexivity.
Qed.

(** Without the flag in storage and without an invitation in the URL the
    sweep of the provider does nothing. *)
Lemma processPendingInvitations_idle (env : AuthContext.Env) (uid : string)
    (ls : LocalStorage) (db : Store) :
  ls !! "process_pending_invitation" ≠ Some "true" →
  Uri.get "invitation" (AuthContext.location_search env) ≠ Some "true" →
  AuthContext.processPendingInvitations env uid ls db = (false, ls, db).
Proof.
  intros Hflag Hurl. unfold AuthContext.processPendingInvitations.
  by rewrite !bool_decide_eq_false_2.
Qed.

Lemma signIn_idle (env : AuthContext.Env) (e p : string) (ls : LocalStorage) (db : Store) :
  ls !! "process_pending_invitation" ≠ Some "true" →
  Uri.get "invitation" (AuthContext.location_search env) ≠ Some "true" →
  ∃ err, AuthContext.signIn env e p ls db = (err, ls, db).
Proof.
  intros Hflag Hurl. unfold AuthContext.signIn.
  destruct (AuthContext.signInWithPassword env e p) as [|[user|]]; eauto.
  rewrite processPendingInvitations_idle by done. eauto.
Qed.

Lemma sweep_cleared (env : Env) (values : Values) (ls : LocalStorage) (db : Store) :
  sweep env values (clear_markers ls) db = (Redirect "/dashboard", clear_markers ls, db).
Proof. unfold sweep. by rewrite read_intent_cleared. Qed.

(** A login on cleared storage, from a URL without invitation, changes
    neither storage nor store. *)
Lemma onFinish_cleared (env : Env) (values : Values) (ls : LocalStorage) (db : Store) :
  Uri.get "invitation" (AuthContext.location_search (auth env)) ≠ Some "true" →
  snd (fst (onFinish env values (clear_markers ls) db)) = clear_markers ls
  ∧ snd (onFinish env values (clear_markers ls) db) = db.
Proof.
  intros Hurl. unfold onFinish.
  destruct (signIn_idle (auth env) (email values) (password values)
              (clear_markers ls) db) as [err ->]; [|done|].
  - rewrite clear_markers_lookup; [done|]. unfold markers. set_solver.
  - destruct err; [done|]. by rewrite sweep_cleared.
Qed.

(** The confirmed-email branch of the sweep is one call of the reconciler. *)
Lemma sweep_confirm_branch (env : Env) (values : Values) (ls : LocalStorage)
    (db : Store) (user : AuthUser) :
  getUser env = Some user → confirm_unreachable env = false →
  Js.truthy (ls !! "pending_confirmation_user_id") = true →
  ls !! "pending_confirmation_email" = Some (email values) →
  Js.truthy (ls !! "pending_confirmation_workspace_id") = true →
  sweep env values ls db =
  (Redirect "/dashboard", clear_markers ls, confirm env values user db).
Proof.
  intros Huser Hreach Huid Hemail Hws.
  unfold sweep, read_intent; simpl.
  rewrite Huser, Hreach, Hemail, Huid, Hws.
  repeat case_bool_decide; try done; cbn [andb orb]; by rewrite ?Hws.
Qed.

(** C10 (amended).  Once the sweep of the login page has attempted a
    reconciliation and the attempt came to its end (the sign-in worked,
    storage then carried an intent, and the reconciler answered, whatever
    its answer), the eight markers are gone from localStorage and every
    other key is as the sign-in left it, [pending_invitation_email] and
    [pending_invitation_workspace_name] among them; a later login from a URL
    without invitation finds nothing to process: the guard of the sweep is
    false, and neither storage nor store change. *)
Theorem C10_answered_sweep_clears_its_markers
    (env : Env) (values : Values) (ls ls1 : LocalStorage) (db db1 : Store)
    (user : AuthUser) :
  AuthContext.signIn (auth env) (email values) (password values) ls db = (false, ls1, db1) →
  getUser env = Some user → confirm_unreachable env = false →
  shouldProcessInvitation (read_intent values ls1)
    && Js.truthy (workspaceId (read_intent values ls1)) = true →
  let '(result, ls', db') := onFinish env values ls db in
  result = Redirect "/dashboard"
  ∧ (∀ key, key ∈ [ "process_pending_invitation"; "pending_workspace_id";
                    "pending_invitation_workspace_id"; "pending_invite_role";
                    "pending_invitation_role"; "pending_confirmation_user_id";
                    "pending_confirmation_email"; "pending_confirmation_workspace_id" ] →
            ls' !! key = None)
  ∧ (∀ key, key ∉ [ "process_pending_invitation"; "pending_workspace_id";
                    "pending_invitation_workspace_id"; "pending_invite_role";
                    "pending_invitation_role"; "pending_confirmation_user_id";
                    "pending_confirmation_email"; "pending_confirmation_workspace_id" ] →
            ls' !! key = ls1 !! key)
  ∧ ∀ env2 values2,
      Uri.get "invitation" (AuthContext.location_search (auth env2)) ≠ Some "true" →
      shouldProcessInvitation (read_intent values2 ls') = false
      ∧ let '(_, ls'', db'') := onFinish env2 values2 ls' db' in ls'' = ls' ∧ db'' = db'.
Proof.
  intros Hsign Huser Hreach Hintent.
  assert (∃ db', onFinish env values ls db = (Redirect "/dashboard", clear_markers ls1, db'))
    as [db' ->].
  { unfold onFinish. rewrite Hsign. unfold sweep. rewrite Hintent, Huser, Hreach.
    destruct (Js.truthy _ && bool_decide _); eauto. }
  split; [done|]. split; [intros key; apply clear_markers_lookup|].
  split; [intros key; apply clear_markers_lookup_other|].
  intros env2 values2 Hurl. split; [apply read_intent_cleared|].
  pose proof (onFinish_cleared env2 values2 ls1 db' Hurl) as [Hls Hdb].
  by destruct (onFinish env2 values2 (clear_markers ls1) db') as [[? ?] ?].
Qed.

End Sweep.

(** ** The Invitation Issuer *)

Section Issuer.

Import CreateInvitation.

Lemma filter_fmap_preserving {A} (P : A → Prop) `{!∀ x, Decision (P x)}
    (f : A → A) (l : list A) :
  (∀ x, P (f x) ↔ P x) → filter P (f <$> l) = f <$> filter P l.
Proof.
  intros Hf. induction l as [|x l IH]; [done|].
  rewrite fmap_cons, !filter_cons, IH.
  destruct (decide (P (f x))) as [Hy|Hn], (decide (P x)) as [Hy'|Hn']; try done.
  - exfalso. by apply Hn', Hf.
  - exfalso. by apply Hn, Hf.
Qed.

Lemma reissue_row_key (w e r by_ : string) (x : Invitation) :
  inv_workspace_id (Db.reissue_row w e r by_ x) = inv_workspace_id x
  ∧ inv_email (Db.reissue_row w e r by_ x) = inv_email x.
Proof. unfold Db.reissue_row. by case_decide. Qed.

Lemma reissue_written (w e r by_ : string) (db : Store) (x : Invitation) :
  Db.invitations_by_key w e db = [x] → written w e r by_ db (Db.reissue w e r by_ db).
Proof.
  intros Hkey. split; [|done].
  exists (Db.reissue_row w e r by_ x).
  assert (inv_workspace_id x = w ∧ inv_email x = e) as Hx.
  { assert (x ∈ Db.invitations_by_key w e db) as Hin by (rewrite Hkey; left).
    by apply list_elem_of_filter in Hin as [? _]. }
  split.
  - unfold Db.invitations_by_key, Db.reissue; simpl.
    rewrite filter_fmap_preserving.
    + fold (Db.invitations_by_key w e db). by rewrite Hkey.
    + intros y. destruct (reissue_row_key w e r by_ y) as [-> ->]. done.
  - unfold Db.reissue_row. by rewrite decide_True.
Qed.

Lemma insert_written (w e r by_ : string) (db : Store) :
  Db.invitations_by_key w e db = [] →
  ∃ db', insert None w e r by_ db = (None, db') ∧ written w e r by_ db db'.
Proof.
  intros Hkey. unfold insert.
  eexists; split; [done|]. split; [|done].
  eexists. split.
  { unfold Db.invitations_by_key, Db.insert_invitation in *; simpl.
    rewrite filter_app, Hkey, filter_cons_True by done. reflexivity. }
  done.
Qed.

Variables (env : Env) (w e r : string) (db : Store).

Hypothesis no_faults : ledger_writes_succeed env.
Hypothesis key_unique : ledger_unique_at w e db.

Lemma existing_or_none :
  (Db.invitations_by_key w e db = []
   ∧ Db.single (Db.invitations_by_key w e db) = None)
  ∨ ∃ x, Db.invitations_by_key w e db = [x]
         ∧ Db.single (Db.invitations_by_key w e db) = Some x.
Proof.
  unfold ledger_unique_at in key_unique.
  destruct (Db.invitations_by_key w e db) as [|x [|y rows]]; simpl in *;
    [by left|right; by exists x|lia].
Qed.

Lemma upsert_written (by_ : string) :
  ∃ db', upsert env w e r by_ db = inr db' ∧ written w e r by_ db db'.
Proof.
  destruct no_faults as (Hc & Hu & Hi).
  unfold upsert. rewrite Hc, Hu, Hi.
  destruct existing_or_none as [[Hkey ->]|(x & Hkey & ->)].
  - destruct (insert_written w e r by_ db Hkey) as (db' & -> & Hw). eauto.
  - eexists; split; [done|]. by eapply reissue_written.
Qed.

Lemma upsert_bypass_written (by_ : string) :
  ∃ db', upsert_bypass env w e r by_ db = inr db' ∧ written w e r by_ db db'.
Proof.
  destruct no_faults as (Hc & Hu & Hi).
  unfold upsert_bypass. rewrite Hc, Hu, Hi.
  destruct existing_or_none as [[Hkey ->]|(x & Hkey & ->)].
  - destruct (insert_written w e r by_ db Hkey) as (db' & -> & Hw). eauto.
  - eexists; split; [done|]. by eapply reissue_written.
Qed.

End Issuer.

Section IssuerClaims.

Import CreateInvitation.

Lemma admits_written (env : Env) (w e r by_ w' : string) (db db' : Store) :
  written w e r by_ db db' → issuer_admits env w' db' = issuer_admits env w' db.
Proof.
  intros (_ & Hm & Hr).
  unfold issuer_admits, isSuperadmin, may_invite, Db.roles_of, Db.members_by_key.
  by rewrite Hm, Hr.
Qed.

(** A well-formed request of an admitted caller reaches the mail step with
    the ledger written. *)
Lemma POST_admitted (env : Env) (body : Body) (db : Store) :
  let w := Js.interpolate (workspaceId body) in
  let e := Js.interpolate (email body) in
  let r := Js.or_default (role body) "member" in
  Js.truthy (email body) = true → Js.truthy (workspaceId body) = true →
  ledger_writes_succeed env → ledger_unique_at w e db →
  issuer_admits env w db = true →
  ∃ db', written w e r (issuer_id env) db db'
         ∧ POST env (Some body) db = send_invitation env body db'.
Proof.
  intros w e r He Hw Hfaults Hkey Hadmit. subst w e r.
  unfold POST. rewrite He, Hw. cbn [negb orb]. cbv zeta.
  unfold issuer_admits, issuer_id in *.
  destruct (session env) as [user|]; cbn [default from_option id].
  - rewrite <- negb_orb, Hadmit. cbn [negb].
    destruct (upsert_written env _ _ (Js.or_default (role body) "member") db
                Hfaults Hkey (su_id user)) as (db' & -> & Hwr).
    eauto.
  - destruct (upsert_bypass_written env _ _ (Js.or_default (role body) "member") db
                Hfaults Hkey (su_id mockUser)) as (db' & -> & Hwr).
    eauto.
Qed.

(** The gate as it is written, for a request that carries a session: a
    caller who is not superadmin and whose membership of the target
    workspace, if any, has a role other than [admin] and [owner] gets status
    403; the store is unchanged and no mail is requested. *)
Lemma gate_forbids_outsider_with_session
    (env : Env) (body : Body) (db : Store) (user : SessionUser) :
  session env = Some user →
  Js.truthy (email body) = true → Js.truthy (workspaceId body) = true →
  (∀ row, Db.roles_of (su_id user) db = [row] → ur_role row ≠ "superadmin") →
  (∀ m, Db.members_by_key (Js.interpolate (workspaceId body)) (su_id user) db = [m] →
        mem_role m ≠ "admin" ∧ mem_role m ≠ "owner") →
  POST env (Some body) db =
  (Json 403 false "Not authorized to invite members to this workspace", db, None).
Proof.
  intros Hsession He Hw Hrole Hmember.
  unfold POST. rewrite He, Hw, Hsession; simpl.
  assert (isSuperadmin env user db = false) as ->.
  { unfold isSuperadmin. destruct (role_lookup_fault env); [done|].
    destruct (Db.single _) as [row|] eqn:Hrow; [|done].
    apply single_Some in Hrow. by rewrite bool_decide_eq_false_2 by eauto. }
  assert (may_invite env user (Js.interpolate (workspaceId body)) db = false) as ->.
  { unfold may_invite. destruct (membership_lookup_fault env); [done|].
    destruct (Db.single _) as [m|] eqn:Hm; [|done].
    apply single_Some in Hm. destruct (Hmember m Hm) as [Ha Ho].
    by rewrite !bool_decide_eq_false_2. }
  reflexivity.
Qed.

(** C4.  The request does not reach that gate.  The client of the route
    holds no session, so the request of a plain member of the workspace,
    whom the gate would refuse, is served by the branch that lets a mock
    superadmin stand in: the route answers with success, not with 403, and
    the ledger gets the invitation, with the mock id as inviter. *)
Theorem C4_request_without_session_is_served :
  let env := Scenario.create_env None MailSent in
  let '(reply, db', request) :=
    POST env (Some (Scenario.create_body "admin")) Scenario.db_with_member in
  session env = None
  ∧ issuer_admits (Scenario.create_env (Some Scenario.plain_member) MailSent)
      Scenario.workspace Scenario.db_with_member = false
  ∧ POST (Scenario.create_env (Some Scenario.plain_member) MailSent)
      (Some (Scenario.create_body "admin")) Scenario.db_with_member
    = (Json 403 false "Not authorized to invite members to this workspace",
       Scenario.db_with_member, None)
  ∧ reply = Json 200 true "Invitation sent to new@x.com"
  ∧ workspace_invitations Scenario.db_with_member = []
  ∧ workspace_invitations db'
    = [ {| inv_id := 1;
           inv_workspace_id := "ws-1";
           inv_email := "new@x.com";
           inv_role := "admin";
           inv_status := "pending";
           inv_invited_by := su_id mockUser;
           inv_accepted_at := None |} ]
  ∧ mail_targetLink <$> request = Some Scenario.link.
Proof. vm_compute. repeat split; reflexivity. Qed.

(** C5.  Two issues for the same [(email, workspace_id)] by admitted
    callers, with the ledger writes going through, leave exactly one ledger
    row for the pair: it is pending, carries the role of the second call
    ([member] when that call names none) and the second caller as inviter. *)
Theorem C5_issue_twice_keeps_one_row
    (env1 env2 : Env) (e w : string) (role1 role2 name1 name2 : Js.value) (db : Store) :
  e ≠ "" → w ≠ "" →
  ledger_unique_at w e db →
  ledger_writes_succeed env1 → ledger_writes_succeed env2 →
  issuer_admits env1 w db = true → issuer_admits env2 w db = true →
  let body1 := {| email := Some e; workspaceId := Some w;
                  role := role1; workspaceName := name1 |} in
  let body2 := {| email := Some e; workspaceId := Some w;
                  role := role2; workspaceName := name2 |} in
  let '(_, db1, _) := POST env1 (Some body1) db in
  let '(_, db2, _) := POST env2 (Some body2) db1 in
  ∃ row, Db.invitations_by_key w e db2 = [row]
         ∧ inv_role row = Js.or_default role2 "member"
         ∧ (∀ r, role2 = Some r → r ≠ "" → inv_role row = r)
         ∧ inv_status row = "pending"
         ∧ inv_invited_by row = issuer_id env2.
Proof.
  intros He Hw Hkey Hf1 Hf2 Ha1 Ha2 body1 body2.
  assert (∀ env' body' d, ∃ reply request,
            send_invitation env' body' d = (reply, d, Some request)) as Hsend.
  { intros env' body' d. unfold send_invitation. destruct (mail env'); eauto. }
  pose proof (POST_admitted env1 body1 db (truthy_Some e He) (truthy_Some w Hw) Hf1 Hkey Ha1)
    as (db1 & Hwr1 & ->).
  destruct (Hsend env1 body1 db1) as (reply1 & request1 & ->).
  assert (ledger_unique_at w e db1) as Hkey1.
  { destruct Hwr1 as ((row & Hrow & _) & _). simpl in Hrow.
    unfold ledger_unique_at. by rewrite Hrow. }
  assert (issuer_admits env2 w db1 = true) as Ha2'.
  { by rewrite (admits_written _ _ _ _ _ _ _ _ Hwr1). }
  pose proof (POST_admitted env2 body2 db1 (truthy_Some e He) (truthy_Some w Hw) Hf2 Hkey1 Ha2')
    as (db2 & Hwr2 & ->).
  destruct (Hsend env2 body2 db2) as (reply2 & request2 & ->).
  destruct Hwr2 as ((row & Hrow & Hr & Hs & Hb) & _). simpl in *.
  exists row. repeat split; try done.
  intros r -> Hr'. rewrite Hr. by apply or_default_nonempty.
Qed.

(** C7 (amended).  When the ledger write of an issue succeeds and the mail
    step does not, the route answers with status 500 and [success: false];
    the error is [Failed to send invitation email] when the mail route
    answered with an error in JSON, and [Failed to create invitation] when
    it could not be reached or its error reply was not JSON.  The invitation
    row stays in the ledger, pending, with the role of the call. *)
Theorem C7_mail_failure_is_reported_and_row_kept
    (env : Env) (body : Body) (db : Store) :
  let w := Js.interpolate (workspaceId body) in
  let e := Js.interpolate (email body) in
  Js.truthy (email body) = true → Js.truthy (workspaceId body) = true →
  ledger_writes_succeed env → ledger_unique_at w e db →
  issuer_admits env w db = true →
  mail env ≠ MailSent →
  let '(reply, db', _) := POST env (Some body) db in
  status reply = 500 ∧ success reply = false
  ∧ text reply = match mail env with
                 | MailRejected => "Failed to send invitation email"
                 | _ => "Failed to create invitation"
                 end
  ∧ ∃ row, Db.invitations_by_key w e db' = [row]
           ∧ inv_status row = "pending"
           ∧ inv_role row = Js.or_default (role body) "member".
Proof.
  intros w e He Hw Hfaults Hkey Hadmit Hmail.
  pose proof (POST_admitted env body db He Hw Hfaults Hkey Hadmit) as (db' & Hwr & ->).
  destruct Hwr as ((row & Hrow & Hr & Hs & _) & _).
  unfold send_invitation. destruct (mail env); [done| | |]; simpl; eauto 10.
Qed.

End IssuerClaims.

(** ** The acceptance deep link *)

Section QueryStrings.

Import Uri.

Local Open Scope string_scope.

Lemma append_cons (c : ascii) (a b : string) : String c a ++ b = String c (a ++ b).
Proof. reflexivity. Qed.

Lemma append_assoc (a b c : string) : (a ++ b) ++ c = a ++ (b ++ c).
Proof.
  induction a as [|x a IH]; [done|].
  rewrite !append_cons. by rewrite IH.
Qed.

Lemma chars_all_app (p : ascii → bool) (a b : string) :
  chars_all p (a ++ b) = chars_all p a && chars_all p b.
Proof.
  induction a as [|x a IH]; [done|].
  rewrite append_cons. simpl. by rewrite IH, andb_assoc.
Qed.

Lemma chars_all_impl (p q : ascii → bool) (s : string) :
  (∀ c, p c = true → q c = true) → chars_all p s = true → chars_all q s = true.
Proof.
  intros Hpq. induction s as [|x s IH]; [done|]. simpl.
  intros [Hx Hs]%andb_true_iff. rewrite (Hpq _ Hx). by apply IH.
Qed.

(** The characters that structure a query string are all reserved. *)
Lemma encoded_not_delimiter (c : ascii) :
  is_encoded c = true →
  c ≠ "&"%char ∧ c ≠ "="%char ∧ c ≠ "#"%char ∧ c ≠ "?"%char ∧ c ≠ "+"%char.
Proof.
  destruct c as [[] [] [] [] [] [] [] []]; vm_compute; intros ?;
    try discriminate; repeat split; discriminate.
Qed.

Lemma unreserved_not_percent (c : ascii) : is_unreserved c = true → c ≠ "%"%char.
Proof.
  destruct c as [[] [] [] [] [] [] [] []]; vm_compute; intros ?;
    try discriminate; discriminate.
Qed.

(** The two hex digits of a byte decode to the byte. *)
Lemma percent_byte_decode (c : ascii) (rest : string) :
  percent_decode (percent_byte c ++ rest) = String c (percent_decode rest).
Proof.
  unfold percent_byte. rewrite !append_cons.
  change ("" ++ rest) with rest. cbn [percent_decode].
  assert (∃ a b, hex_value (hex_digit (code c / 16)) = Some a
                 ∧ hex_value (hex_digit (code c mod 16)) = Some b
                 ∧ ascii_of_nat (16 * a + b) = c) as (a & b & Ha & Hb & Hc).
  { destruct c as [[] [] [] [] [] [] [] []]; vm_compute; eauto. }
  change (Ascii.eqb "%" "%") with true. cbv iota.
  by rewrite Ha, Hb, Hc.
Qed.

Lemma percent_byte_encoded (c : ascii) :
  chars_all is_encoded (percent_byte c) = true.
Proof. destruct c as [[] [] [] [] [] [] [] []]; vm_compute; reflexivity. Qed.

Lemma encode_encoded (s : string) :
  chars_all is_encoded (encodeURIComponent s) = true.
Proof.
  induction s as [|c s IH]; [done|]. cbn [encodeURIComponent].
  destruct (is_unreserved c) eqn:Hc.
  - cbn [chars_all]. unfold is_encoded at 1. by rewrite Hc, IH.
  - by rewrite chars_all_app, percent_byte_encoded, IH.
Qed.

(** Decoding undoes [encodeURIComponent]. *)
Lemma encode_decode (s : string) : percent_decode (encodeURIComponent s) = s.
Proof.
  induction s as [|c s IH]; [done|]. cbn [encodeURIComponent].
  destruct (is_unreserved c) eqn:Hc.
  - cbn [percent_decode].
    apply unreserved_not_percent, Ascii.eqb_neq in Hc. by rewrite Hc, IH.
  - by rewrite percent_byte_decode, IH.
Qed.

Lemma encoded_free (s : string) :
  chars_all is_encoded s = true →
  free "&" s = true ∧ free "=" s = true ∧ free "#" s = true
  ∧ free "?" s = true ∧ free "+" s = true.
Proof.
  intros Hs. unfold free.
  repeat split; (eapply chars_all_impl; [|exact Hs]); intros c Hc;
    apply encoded_not_delimiter in Hc as (? & ? & ? & ? & ?);
    by apply negb_true_iff, Ascii.eqb_neq.
Qed.

Lemma token_encoded (s : string) : token s = true → chars_all is_encoded s = true.
Proof.
  apply chars_all_impl. intros c Hc. unfold is_encoded. by rewrite Hc.
Qed.

Lemma token_free_percent (s : string) : token s = true → free "%" s = true.
Proof.
  apply chars_all_impl. intros c Hc.
  by apply negb_true_iff, Ascii.eqb_neq, unreserved_not_percent.
Qed.

Lemma free_cons (sep c : ascii) (s : string) :
  free sep (String c s) = true ↔ Ascii.eqb c sep = false ∧ free sep s = true.
Proof. unfold free. simpl. rewrite andb_true_iff, negb_true_iff. done. Qed.

Lemma plus_to_space_free (s : string) : free "+" s = true → plus_to_space s = s.
Proof.
  induction s as [|c s IH]; [done|].
  intros [Hc Hs]%free_cons. simpl. by rewrite Hc, IH.
Qed.

Lemma percent_decode_free (s : string) : free "%" s = true → percent_decode s = s.
Proof.
  induction s as [|c s IH]; [done|].
  intros [Hc Hs]%free_cons. cbn [percent_decode]. by rewrite Hc, IH.
Qed.

Lemma cut_at_free (sep : ascii) (a : string) :
  free sep a = true → cut_at sep a = (a, None).
Proof.
  induction a as [|c a IH]; [done|].
  intros [Hc Ha]%free_cons. simpl. by rewrite Hc, IH.
Qed.

Lemma cut_at_app (sep : ascii) (a b : string) :
  free sep a = true → cut_at sep (a ++ String sep b) = (a, Some b).
Proof.
  induction a as [|c a IH].
  - intros _. change ("" ++ String sep b) with (String sep b).
    simpl. by rewrite Ascii.eqb_refl.
  - intros [Hc Ha]%free_cons. rewrite append_cons. simpl. by rewrite Hc, IH.
Qed.

Lemma split_on_free (sep : ascii) (a : string) :
  free sep a = true → split_on sep a = [a].
Proof.
  induction a as [|c a IH]; [done|].
  intros [Hc Ha]%free_cons. simpl. by rewrite Hc, IH.
Qed.

Lemma split_on_app (sep : ascii) (a b : string) :
  free sep a = true → split_on sep (a ++ String sep b) = a :: split_on sep b.
Proof.
  induction a as [|c a IH].
  - intros _. change ("" ++ String sep b) with (String sep b).
    simpl. by rewrite Ascii.eqb_refl.
  - intros [Hc Ha]%free_cons. rewrite append_cons. simpl. by rewrite Hc, IH.
Qed.

Lemma free_app (sep : ascii) (a b : string) :
  free sep (a ++ b) = true ↔ free sep a = true ∧ free sep b = true.
Proof. unfold free. by rewrite chars_all_app, andb_true_iff. Qed.

(** A piece [name=value] whose value came out of [encodeURIComponent]. *)
Lemma parse_pair_encoded (name value : string) :
  free "=" name = true → free "+" name = true → free "%" name = true →
  parse_pair (name ++ String "=" (encodeURIComponent value)) = (name, value).
Proof.
  intros Heq Hplus Hpct. unfold parse_pair, decode_component.
  rewrite cut_at_app by done. simpl.
  destruct (encoded_free _ (encode_encoded value)) as (_ & _ & _ & _ & Hv).
  by rewrite !plus_to_space_free, percent_decode_free, encode_decode.
Qed.

(** A piece [name=value] whose value is a token, written as it is. *)
Lemma parse_pair_token (name value : string) :
  free "=" name = true → free "+" name = true → free "%" name = true →
  token value = true →
  parse_pair (name ++ String "=" value) = (name, value).
Proof.
  intros Heq Hplus Hpct Hv. unfold parse_pair, decode_component.
  rewrite cut_at_app by done. simpl.
  destruct (encoded_free _ (token_encoded _ Hv)) as (_ & _ & _ & _ & Hv').
  by rewrite !plus_to_space_free, !percent_decode_free by auto using token_free_percent.
Qed.

End QueryStrings.

Section DeepLink.

Import Uri CreateInvitation.

Local Open Scope string_scope.

Variables (env : Env) (body : Body).

Let e : string := Js.interpolate (email body).
Let w : string := Js.interpolate (workspaceId body).
Let r : string := Js.or_default (role body) "member".
Let n : string := Js.interpolate (workspaceName body).

Hypothesis base_plain : free "?" (base_url env) = true ∧ free "#" (base_url env) = true.
Hypothesis w_token : token w = true.
Hypothesis r_token : token r = true.

Lemma targetLink_shape :
  targetLink env body =
  (base_url env ++ "/auth/accept-invitation")
  ++ String "?"
       (("email" ++ String "=" (encodeURIComponent e))
        ++ String "&"
             (("workspace_id" ++ String "=" w)
              ++ String "&"
                   (("invite_role" ++ String "=" r)
                    ++ String "&" ("workspace_name" ++ String "=" (encodeURIComponent n))))).
Proof. unfold targetLink. rewrite !append_assoc. reflexivity. Qed.

Local Ltac free_tac :=
  repeat (rewrite free_app || rewrite free_cons);
  repeat split; first [ assumption | reflexivity ].

Lemma targetLink_params :
  searchParams (targetLink env body) =
  [ ("email", e); ("workspace_id", w); ("invite_role", r); ("workspace_name", n) ].
Proof.
  destruct base_plain as [Hq Hf].
  destruct (encoded_free _ (encode_encoded e)) as (Ea & Ee & Ef & Eq & _).
  destruct (encoded_free _ (encode_encoded n)) as (Na & Ne & Nf & Nq & _).
  destruct (encoded_free _ (token_encoded _ w_token)) as (Wa & We & Wf & Wq & _).
  destruct (encoded_free _ (token_encoded _ r_token)) as (Ra & Re & Rf & Rq & _).
  rewrite targetLink_shape. unfold searchParams, search.
  rewrite cut_at_free.
  2:{ free_tac. }
  rewrite cut_at_app by free_tac.
  unfold parse_query.
  rewrite !split_on_app, split_on_free by free_tac.
  rewrite !filter_cons_True, filter_nil by done.
  rewrite !fmap_cons, fmap_nil.
  by rewrite !parse_pair_encoded, !parse_pair_token.
Qed.

(** C8 (amended).  When the workspace id and the role are tokens (only
    unreserved characters, as UUIDs and role names are) and the base URL has
    neither query nor fragment, the link posted to the mail step carries
    exactly the four query parameters [email], [workspace_id], [invite_role]
    and [workspace_name], bound to the email, the workspace id, the role
    ([member] when none is given) and the workspace name of the request. *)
Theorem C8_deep_link_carries_four_parameters
    (db db' : Store) (reply : Response) (request : MailRequest) :
  POST env (Some body) db = (reply, db', Some request) →
  searchParams (mail_targetLink request) =
  [ ("email", e); ("workspace_id", w); ("invite_role", r); ("workspace_name", n) ].
Proof.
  intros Hpost. rewrite <- targetLink_params. f_equal.
  unfold POST in Hpost.
  assert (∀ d, send_invitation env body d = (reply, db', Some request) →
               mail_targetLink request = targetLink env body) as Hsend.
  { intros d. unfold send_invitation. destruct (mail env); by intros [= _ _ <-]. }
  destruct (negb _ || negb _); [done|].
  destruct (session env) as [user|].
  - destruct (negb _ && negb _); [done|].
    destruct (upsert _ _ _ _ _ _); [done|]. eauto.
  - destruct (upsert_bypass _ _ _ _ _ _); [done|]. eauto.
Qed.

End DeepLink.

(** ** The claims at concrete inputs *)

Section Counterexamples.

(** C3 as stated fails: the invitation is cancelled, no pending row is
    left, and still the login, driven by the parameters of the link that
    the registration page put into localStorage, writes the membership: the
    sweep that runs inside the sign-in never reads the ledger.  (The row
    stays cancelled, and the role of the link is not taken either.) *)
Lemma C3_sweep_reconciles_cancelled_invitation :
  let db1 := MembersPage.handleCancelInvitation false 1 Scenario.db_pending in
  let ls := RegisterPage.useEffect (Uri.searchParams Scenario.link) ∅ in
  let '(result, _, db2) :=
    LoginPage.onFinish (Scenario.login_env Scenario.user_confirmed)
      Scenario.login_values ls db1 in
  inv_status <$> workspace_invitations db1 = ["cancelled"]
  ∧ Db.invitations_by_email_status Scenario.invitee "pending" db1 = []
  ∧ Db.members_by_key Scenario.workspace "user-1" db1 = []
  ∧ result = LoginPage.Redirect "/dashboard"
  ∧ Db.members_by_key Scenario.workspace "user-1" db2
    = [ {| mem_workspace_id := "ws-1"; mem_user_id := "user-1"; mem_role := "member" |} ]
  ∧ inv_status <$> workspace_invitations db2 = ["cancelled"].
Proof. vm_compute. repeat split; reflexivity. Qed.

(** C7 as stated fails: the ledger write succeeds, the mail step answers
    with an error, and the inviter is told of a failure, not of a success;
    the row stays. *)
Lemma C7_mail_failure_is_not_reported_as_success :
  let env := Scenario.create_env (Some Scenario.root) CreateInvitation.MailRejected in
  let '(reply, db', _) :=
    CreateInvitation.POST env (Some (Scenario.create_body "admin")) Scenario.db_empty_ledger in
  reply = Json 500 false "Failed to send invitation email"
  ∧ success reply = false
  ∧ (inv_email <$> workspace_invitations db', inv_status <$> workspace_invitations db')
    = (["new@x.com"], ["pending"]).
Proof. vm_compute. repeat split; reflexivity. Qed.

(** C8 as stated fails: the role (like the workspace id) is written into
    the link as it is, so a role with [&] and [=] in it yields five
    parameters, and [invite_role] is not bound to the role of the
    invitation, which the ledger holds in full. *)
Lemma C8_unencoded_role_adds_a_parameter :
  let env := Scenario.create_env (Some Scenario.root) CreateInvitation.MailSent in
  let '(reply, db', request) :=
    CreateInvitation.POST env (Some (Scenario.create_body "admin&x=1"))
      Scenario.db_empty_ledger in
  reply = Json 200 true "Invitation sent to new@x.com"
  ∧ inv_role <$> workspace_invitations db' = ["admin&x=1"]
  ∧ (Uri.searchParams ∘ CreateInvitation.mail_targetLink) <$> request
    = Some [ ("email", "new@x.com"); ("workspace_id", "ws-1");
             ("invite_role", "admin"); ("x", "1");
             ("workspace_name", "Research & Development") ].
Proof. vm_compute. repeat split; reflexivity. Qed.

(** C10 as stated fails: the reconciler cannot be reached, the handler
    leaves through its [catch] before the markers are removed, and the next
    login, with the server back, finds the intent in storage and reconciles:
    the failed reconciliation is retried. *)
Lemma C10_unanswered_reconciliation_is_retried :
  let env := Samples.login_env_unreachable Scenario.user_confirmed in
  let '(result, ls', db') :=
    LoginPage.onFinish env Scenario.login_values Scenario.ls_after_acceptance
      Scenario.db_pending in
  let '(result2, ls2, db2) :=
    LoginPage.onFinish (Scenario.login_env Scenario.user_confirmed)
      Scenario.login_values ls' db' in
  result = LoginPage.ShowError "An error occurred during login"
  ∧ db' = Scenario.db_pending
  ∧ ls' = Scenario.ls_after_acceptance
  ∧ (ls' !! "pending_confirmation_user_id", ls' !! "pending_confirmation_email",
     ls' !! "pending_confirmation_workspace_id")
    = (Some "user-1", Some "new@x.com", Some "ws-1")
  ∧ LoginPage.shouldProcessInvitation (LoginPage.read_intent Scenario.login_values ls') = true
  ∧ result2 = LoginPage.Redirect "/dashboard"
  ∧ Db.members_by_key Scenario.workspace "user-1" db2
    = [ {| mem_workspace_id := "ws-1"; mem_user_id := "user-1"; mem_role := "admin" |} ]
  ∧ ls2 !! "pending_confirmation_user_id" = None.
Proof. vm_compute. repeat split; reflexivity. Qed.

End Counterexamples.

Section Witnesses.

(** The hypotheses of C6 hold for the unconfirmed invitee of the scenario. *)
Lemma C6_witness :
  email_confirmed_at Scenario.user_unconfirmed = None
  ∧ ConfirmEmail.POST (Scenario.confirm_env Scenario.user_unconfirmed)
      Scenario.confirm_request Scenario.db_pending
    = (Json 400 false "Email not confirmed yet", Scenario.db_pending).
Proof.
  split; [reflexivity|].
  apply (C6_unconfirmed_email_is_refused
           (Scenario.confirm_env Scenario.user_unconfirmed)
           Scenario.invitee "user-1" Scenario.user_unconfirmed);
    [discriminate | discriminate | discriminate | reflexivity | reflexivity].
Defined.

(** The hypotheses of C9 hold for an invitee pending in two workspaces. *)
Lemma C9_witness :
  inv_workspace_id <$> Db.invitations_by_email_status Scenario.invitee "pending"
                         Scenario.db_two_pending = ["ws-1"; "ws-2"]
  ∧ ConfirmEmail.POST (Scenario.confirm_env Scenario.user_confirmed)
      Scenario.confirm_request Scenario.db_two_pending
    = (Json 404 false "No pending invitation found", Scenario.db_two_pending).
Proof.
  split; [reflexivity|].
  apply (C9_two_pending_workspaces_block_reconcile
           (Scenario.confirm_env Scenario.user_confirmed)
           Scenario.invitee "user-1" Scenario.user_confirmed
           ltac:(discriminate) ltac:(discriminate) ltac:(discriminate) eq_refl
           Scenario.db_two_pending Scenario.pending_invitation Scenario.second_invitation);
    [reflexivity | | | reflexivity | reflexivity | reflexivity | reflexivity | discriminate].
  - apply list_elem_of_here.
  - apply list_elem_of_further, list_elem_of_here.
Defined.

(** The hypotheses of C3 hold for the cancelled invitation of the scenario. *)
Lemma C3_witness :
  pending_elsewhere Scenario.workspace Scenario.invitee Scenario.db_pending = [] ∧
  let db1 := MembersPage.handleCancelInvitation false 1 Scenario.db_pending in
  let '(reply, db2) :=
    ConfirmEmail.POST (Scenario.confirm_env Scenario.user_confirmed)
      Scenario.confirm_request db1 in
  memberships_in Scenario.workspace db2 = memberships_in Scenario.workspace db1
  ∧ Db.invitations_by_key Scenario.workspace Scenario.invitee db2
    = Db.invitations_by_key Scenario.workspace Scenario.invitee db1
  ∧ Forall (λ r, inv_status r = "cancelled")
      (Db.invitations_by_key Scenario.workspace Scenario.invitee db2)
  ∧ (pending_elsewhere Scenario.workspace Scenario.invitee Scenario.db_pending = [] →
     reply = Json 404 false "No pending invitation found" ∧ db2 = db1).
Proof.
  split; [reflexivity|].
  refine (C3_callback_ignores_cancelled_invitation
            Scenario.workspace Scenario.invitee 1 Scenario.db_pending _
            (Scenario.confirm_env Scenario.user_confirmed) "user-1" Scenario.user_confirmed
            _ _ _ _ _);
    [ | discriminate | discriminate | discriminate | reflexivity | reflexivity].
  intros r Hin _ _. apply list_elem_of_singleton in Hin. by subst r.
Defined.

(** The hypotheses of C5 hold when the superadmin invites as [member] and
    the workspace admin then re-invites as [admin]. *)
Lemma C5_witness :
  let env1 := Scenario.create_env (Some Scenario.root) CreateInvitation.MailSent in
  let env2 := Scenario.create_env (Some Scenario.admin) CreateInvitation.MailSent in
  let '(_, db1, _) :=
    CreateInvitation.POST env1 (Some (Scenario.create_body "member"))
      Scenario.db_empty_ledger in
  let '(_, db2, _) :=
    CreateInvitation.POST env2 (Some (Scenario.create_body "admin")) db1 in
  ∃ row, Db.invitations_by_key Scenario.workspace Scenario.invitee db2 = [row]
         ∧ inv_role row = "admin"
         ∧ (∀ r, Some "admin" = Some r → r ≠ "" → inv_role row = r)
         ∧ inv_status row = "pending"
         ∧ inv_invited_by row = "admin-1".
Proof.
  apply (C5_issue_twice_keeps_one_row
           (Scenario.create_env (Some Scenario.root) CreateInvitation.MailSent)
           (Scenario.create_env (Some Scenario.admin) CreateInvitation.MailSent)
           Scenario.invitee Scenario.workspace (Some "member") (Some "admin")
           (Some "Research & Development") (Some "Research & Development")
           Scenario.db_empty_ledger);
    [ discriminate | discriminate | vm_compute; lia
    | repeat split; reflexivity | repeat split; reflexivity
    | reflexivity | reflexivity ].
Defined.

(** The hypotheses of C7 hold when the mail step rejects the request. *)
Lemma C7_witness :
  let env := Scenario.create_env (Some Scenario.root) CreateInvitation.MailRejected in
  let '(reply, db', _) :=
    CreateInvitation.POST env (Some (Scenario.create_body "admin"))
      Scenario.db_empty_ledger in
  status reply = 500 ∧ success reply = false
  ∧ text reply = "Failed to send invitation email"
  ∧ ∃ row, Db.invitations_by_key Scenario.workspace Scenario.invitee db' = [row]
           ∧ inv_status row = "pending" ∧ inv_role row = "admin".
Proof.
  apply (C7_mail_failure_is_reported_and_row_kept
           (Scenario.create_env (Some Scenario.root) CreateInvitation.MailRejected)
           (Scenario.create_body "admin") Scenario.db_empty_ledger);
    [ reflexivity | reflexivity | repeat split; reflexivity
    | vm_compute; lia | reflexivity | discriminate ].
Defined.

(** The hypotheses of C8 hold for the link of the scenario. *)
Lemma C8_witness :
  Uri.token Scenario.workspace = true ∧ Uri.token "admin" = true
  ∧ Uri.searchParams Scenario.link =
    [ ("email", "new@x.com"); ("workspace_id", "ws-1"); ("invite_role", "admin");
      ("workspace_name", "Research & Development") ].
Proof.
  split; [reflexivity|]. split; [reflexivity|].
  pose (env := Scenario.create_env (Some Scenario.root) CreateInvitation.MailSent).
  pose (out := CreateInvitation.POST env (Some (Scenario.create_body "admin"))
                 Scenario.db_empty_ledger).
  apply (C8_deep_link_carries_four_parameters env (Scenario.create_body "admin")
           (conj eq_refl eq_refl) eq_refl eq_refl
           Scenario.db_empty_ledger (snd (fst out)) (fst (fst out))
           {| CreateInvitation.mail_email := "new@x.com";
              CreateInvitation.mail_workspaceId := "ws-1";
              CreateInvitation.mail_role := "admin";
              CreateInvitation.mail_workspaceName := Some "Research & Development";
              CreateInvitation.mail_existingUser := false;
              CreateInvitation.mail_targetLink := Scenario.link |}).
  vm_compute. reflexivity.
Defined.

(** The hypotheses of C10 hold for the login of the invitee whose email is
    not confirmed yet: the reconciler refuses, the markers go all the same. *)
Lemma C10_witness :
  fst (ConfirmEmail.POST (Scenario.confirm_env Scenario.user_unconfirmed)
         Scenario.confirm_request Scenario.db_pending)
  = Json 400 false "Email not confirmed yet" ∧
  let '(result, ls', db') :=
    LoginPage.onFinish (Scenario.login_env Scenario.user_unconfirmed)
      Scenario.login_values Scenario.ls_after_acceptance Scenario.db_pending in
  result = LoginPage.Redirect "/dashboard"
  ∧ (∀ key, key ∈ [ "process_pending_invitation"; "pending_workspace_id";
                    "pending_invitation_workspace_id"; "pending_invite_role";
                    "pending_invitation_role"; "pending_confirmation_user_id";
                    "pending_confirmation_email"; "pending_confirmation_workspace_id" ] →
            ls' !! key = None)
  ∧ (∀ key, key ∉ [ "process_pending_invitation"; "pending_workspace_id";
                    "pending_invitation_workspace_id"; "pending_invite_role";
                    "pending_invitation_role"; "pending_confirmation_user_id";
                    "pending_confirmation_email"; "pending_confirmation_workspace_id" ] →
            ls' !! key = Scenario.ls_after_acceptance !! key)
  ∧ ∀ env2 values2,
      Uri.get "invitation" (AuthContext.location_search (LoginPage.auth env2)) ≠ Some "true" →
      LoginPage.shouldProcessInvitation (LoginPage.read_intent values2 ls') = false
      ∧ let '(_, ls'', db'') := LoginPage.onFinish env2 values2 ls' db' in
        ls'' = ls' ∧ db'' = db'.
Proof.
  split; [reflexivity|].
  apply (C10_answered_sweep_clears_its_markers
           (Scenario.login_env Scenario.user_unconfirmed) Scenario.login_values
           Scenario.ls_after_acceptance Scenario.ls_after_acceptance
           Scenario.db_pending Scenario.db_pending Scenario.user_unconfirmed);
    [ vm_compute; reflexivity | reflexivity | reflexivity | vm_compute; reflexivity ].
Defined.

End Witnesses.

(** * Further properties *)

(** * Further properties *)

(** ** The issuer and the store *)

Section IssuerFrame.

Import CreateInvitation.

Lemma issuer_frame_refl (w e : string) (db : Store) : issuer_frame w e db db.
Proof. by repeat split. Qed.

Lemma fmap_filter_id {A} (P : A → Prop) `{!∀ x, Decision (P x)} (f : A → A) (l : list A) :
  (∀ x, P x → f x = x) → f <$> filter P l = filter P l.
Proof.
  intros Hf. induction l as [|x l IH]; [done|].
  rewrite filter_cons. case_decide; [|done].
  rewrite fmap_cons, IH. f_equal. by apply Hf.
Qed.

Lemma by_key_reissue (w e r by_ w' e' : string) (db : Store) :
  Db.invitations_by_key w' e' (Db.reissue w e r by_ db)
  = Db.reissue_row w e r by_ <$> Db.invitations_by_key w' e' db.
Proof.
  unfold Db.invitations_by_key, Db.reissue; simpl.
  apply filter_fmap_preserving.
  intros x. by destruct (reissue_row_key w e r by_ x) as [-> ->].
Qed.

Lemma issuer_frame_reissue (w e r by_ : string) (db : Store) :
  issuer_frame w e db (Db.reissue w e r by_ db).
Proof.
  split; [done|]. split; [done|].
  intros w' e' Hne. rewrite by_key_reissue.
  apply fmap_filter_id. intros x [Hw He].
  unfold Db.reissue_row. rewrite decide_False; [done|].
  intros [Hw' He']. apply Hne. split; congruence.
Qed.

Lemma by_key_insert (w e r by_ w' e' : string) (db : Store) :
  Db.invitations_by_key w' e' (Db.insert_invitation w e r by_ db)
  = (Db.invitations_by_key w' e' db ++
     if decide (w = w' ∧ e = e')
     then [ {| inv_id := next_invitation_id db; inv_workspace_id := w; inv_email := e;
               inv_role := r; inv_status := "pending"; inv_invited_by := by_;
               inv_accepted_at := None |} ]
     else [])%list.
Proof.
  unfold Db.invitations_by_key, Db.insert_invitation; simpl.
  rewrite filter_app. by f_equal.
Qed.

Lemma issuer_frame_insert (w e r by_ : string) (db : Store) :
  issuer_frame w e db (Db.insert_invitation w e r by_ db).
Proof.
  split; [done|]. split; [done|].
  intros w' e' Hne. rewrite by_key_insert, decide_False.
  - apply app_nil_r.
  - intros [Hw' He']. apply Hne. split; congruence.
Qed.

Lemma issuer_frame_insert_step (fault : option string) (w e r by_ : string) (db : Store) :
  issuer_frame w e db (snd (insert fault w e r by_ db)).
Proof.
  unfold insert. destruct fault; simpl;
    eauto using issuer_frame_insert, issuer_frame_refl.
Qed.

Lemma issuer_frame_trans (w e : string) (db1 db2 db3 : Store) :
  issuer_frame w e db1 db2 → issuer_frame w e db2 db3 → issuer_frame w e db1 db3.
Proof.
  intros (Hm1 & Hr1 & Ho1) (Hm2 & Hr2 & Ho2).
  split; [congruence|]. split; [congruence|].
  intros w' e' Hne. by rewrite Ho2, Ho1.
Qed.

Lemma upsert_frame (env : Env) (w e r by_ : string) (db db' : Store) :
  upsert env w e r by_ db = inr db' → issuer_frame w e db db'.
Proof.
  unfold upsert.
  destruct (if check_fault env then None else Db.single _).
  - intros [= <-]. destruct (update_fault env);
      eauto using issuer_frame_refl, issuer_frame_reissue.
  - pose proof (issuer_frame_insert_step (insert_fault env) w e r by_ db) as Hstep.
    destruct (insert _ _ _ _ _ _) as [[message|] db1]; simpl in Hstep.
    + destruct (negb _); [done|]. by intros [= <-].
    + by intros [= <-].
Qed.

Lemma upsert_bypass_frame (env : Env) (w e r by_ : string) (db db' : Store) :
  upsert_bypass env w e r by_ db = inr db' → issuer_frame w e db db'.
Proof.
  unfold upsert_bypass.
  destruct (if check_fault env then None else Db.single _).
  - intros [= <-]. destruct (update_fault env);
      eauto using issuer_frame_refl, issuer_frame_reissue.
  - pose proof (issuer_frame_insert_step (insert_fault env) w e r by_ db) as Hstep.
    destruct (insert _ _ _ _ _ _) as [[message|] db1]; simpl in Hstep.
    + destruct (Js.includes message "does not exist").
      * destruct (create_table_fault env); [done|]. intros [= <-].
        destruct (retry_fault env); [done|].
        eapply issuer_frame_trans; [exact Hstep|].
        apply (issuer_frame_insert_step None).
      * destruct (negb _); [done|]. by intros [= <-].
    + by intros [= <-].
Qed.

(** The lookup before the write is what keeps a key at one row: the store
    would take a second. *)
Lemma single_None_nil (w e : string) (db : Store) :
  ledger_unique_at w e db →
  Db.single (Db.invitations_by_key w e db) = None →
  Db.invitations_by_key w e db = [].
Proof.
  unfold ledger_unique_at.
  destruct (Db.invitations_by_key w e db) as [|x [|y rows]]; simpl; [done|done|lia].
Qed.

Lemma insert_unique (w e r by_ : string) (db : Store) :
  Db.invitations_by_key w e db = [] →
  ledger_unique_at w e (Db.insert_invitation w e r by_ db).
Proof.
  intros Hkey. unfold ledger_unique_at.
  rewrite by_key_insert, Hkey, decide_True by done. simpl. lia.
Qed.

Lemma reissue_unique (w e r by_ : string) (db : Store) :
  ledger_unique_at w e db → ledger_unique_at w e (Db.reissue w e r by_ db).
Proof. unfold ledger_unique_at. by rewrite by_key_reissue, length_fmap. Qed.

Lemma upsert_unique (env : Env) (w e r by_ : string) (db db' : Store) :
  check_fault env = false → ledger_unique_at w e db →
  upsert env w e r by_ db = inr db' → ledger_unique_at w e db'.
Proof.
  intros Hcheck Huniq. unfold upsert, insert. rewrite Hcheck.
  destruct (Db.single _) as [x|] eqn:Hsingle.
  - intros [= <-]. destruct (update_fault env); [done|]. by apply reissue_unique.
  - apply single_None_nil in Hsingle; [|done].
    destruct (insert_fault env) as [message|].
    + destruct (negb _); [done|]. by intros [= <-].
    + intros [= <-]. by apply insert_unique.
Qed.

Lemma upsert_bypass_unique (env : Env) (w e r by_ : string) (db db' : Store) :
  check_fault env = false → ledger_unique_at w e db →
  upsert_bypass env w e r by_ db = inr db' → ledger_unique_at w e db'.
Proof.
  intros Hcheck Huniq. unfold upsert_bypass, insert. rewrite Hcheck.
  destruct (Db.single _) as [x|] eqn:Hsingle.
  - intros [= <-]. destruct (update_fault env); [done|]. by apply reissue_unique.
  - apply single_None_nil in Hsingle; [|done].
    destruct (insert_fault env) as [message|].
    + destruct (Js.includes message "does not exist").
      * destruct (create_table_fault env); [done|]. intros [= <-].
        destruct (retry_fault env); [done|]. simpl. by apply insert_unique.
      * destruct (negb _); [done|]. by intros [= <-].
    + intros [= <-]. by apply insert_unique.
Qed.

Lemma send_invitation_store (env : Env) (body : Body) (db : Store) :
  ∃ reply request, send_invitation env body db = (reply, db, Some request)
                   ∧ mail_targetLink request = targetLink env body
                   ∧ mail_email request = Js.interpolate (email body).
Proof. unfold send_invitation. destruct (mail env); eauto. Qed.

(** X1.  The issuer, whoever calls it and whatever fails, leaves memberships
    and global roles alone and leaves the ledger rows of every other
    (workspace, email) alone.  When its lookup of the existing invitation
    works, a key that had at most one row has at most one row afterwards:
    that is the work of the lookup, for the store would take a second row. *)
Theorem issuer_touches_only_its_ledger_key (env : Env) (body : Body) (db : Store) :
  issuer_frame (Js.interpolate (workspaceId body)) (Js.interpolate (email body))
    db (snd (fst (POST env (Some body) db)))
  ∧ (check_fault env = false →
     ledger_unique_at (Js.interpolate (workspaceId body)) (Js.interpolate (email body)) db →
     ledger_unique_at (Js.interpolate (workspaceId body)) (Js.interpolate (email body))
       (snd (fst (POST env (Some body) db)))).
Proof.
  unfold POST.
  destruct (negb _ || negb _); [split; [apply issuer_frame_refl|done]|].
  cbv zeta. destruct (session env) as [user|].
  - destruct (negb _ && negb _); [split; [apply issuer_frame_refl|done]|].
    destruct (upsert _ _ _ _ _ _) as [reply|db'] eqn:Hup;
      [split; [apply issuer_frame_refl|done]|].
    destruct (send_invitation_store env body db') as (reply & request & -> & _).
    split; [by eapply upsert_frame|]. intros Hcheck Huniq. by eapply upsert_unique.
  - destruct (upsert_bypass _ _ _ _ _ _) as [reply|db'] eqn:Hup;
      [split; [apply issuer_frame_refl|done]|].
    destruct (send_invitation_store env body db') as (reply & request & -> & _).
    split; [by eapply upsert_bypass_frame|].
    intros Hcheck Huniq. by eapply upsert_bypass_unique.
Qed.

(** With the lookup lost the same call leaves two rows for the key. *)
Example lost_lookup_duplicates_the_row :
  inv_role <$> Db.invitations_by_key Scenario.workspace Scenario.invitee
                 (snd (fst (POST Samples.issuer_env_lookup_lost
                              (Some (Scenario.create_body "member")) Scenario.db_pending)))
  = ["admin"; "member"].
Proof. vm_compute. reflexivity. Qed.

(** X2.  A mail request leaves the issuer only for a request that names email
    and workspace and whose caller passed the gate; it carries the link of
    that request. *)
Theorem issuer_mails_only_admitted_requests
    (env : Env) (body : Body) (db db' : Store) (reply : Response) (request : MailRequest) :
  POST env (Some body) db = (reply, db', Some request) →
  Js.truthy (email body) = true
  ∧ Js.truthy (workspaceId body) = true
  ∧ issuer_admits env (Js.interpolate (workspaceId body)) db = true
  ∧ mail_targetLink request = targetLink env body
  ∧ mail_email request = Js.interpolate (email body).
Proof.
  unfold POST, issuer_admits.
  destruct (Js.truthy (email body)), (Js.truthy (workspaceId body)); simpl; try done.
  destruct (session env) as [user|].
  - destruct (isSuperadmin _ _ _), (may_invite _ _ _ _); simpl; try done;
      (destruct (upsert _ _ _ _ _ _) as [?|d]; [done|];
       destruct (send_invitation_store env body d) as (? & ? & -> & ? & ?);
       intros [= <- <- <-]; done).
  - destruct (upsert_bypass _ _ _ _ _ _) as [?|d]; [done|].
    destruct (send_invitation_store env body d) as (? & ? & -> & ? & ?).
    by intros [= <- <- <-].
Qed.

(** With a row of the key in the ledger the admitted call rewrites it and
    goes on to the mail. *)
Lemma POST_existing_row (env : Env) (body : Body) (db : Store) (x : Invitation) :
  let w := Js.interpolate (workspaceId body) in
  let e := Js.interpolate (email body) in
  Js.truthy (email body) = true → Js.truthy (workspaceId body) = true →
  ledger_writes_succeed env → issuer_admits env w db = true →
  Db.invitations_by_key w e db = [x] →
  POST env (Some body) db
  = send_invitation env body
      (Db.reissue w e (Js.or_default (role body) "member") (issuer_id env) db).
Proof.
  intros w e He Hw (Hc & Hu & Hi) Hadmit Hkey. subst w e.
  unfold POST. rewrite He, Hw. cbn [negb orb]. cbv zeta.
  unfold issuer_admits, issuer_id in *.
  destruct (session env) as [user|]; cbn [default from_option id].
  - rewrite <- negb_orb, Hadmit. cbn [negb].
    unfold upsert. by rewrite Hc, Hu, Hkey.
  - unfold upsert_bypass. by rewrite Hc, Hu, Hkey.
Qed.

Lemma reissue_row_at_key (w e r by_ : string) (x : Invitation) :
  inv_workspace_id x = w → inv_email x = e →
  Db.reissue_row w e r by_ x
  = {| inv_id := inv_id x;
       inv_workspace_id := w;
       inv_email := e;
       inv_role := r;
       inv_status := "pending";
       inv_invited_by := by_;
       inv_accepted_at := inv_accepted_at x |}.
Proof.
  intros Hw He. unfold Db.reissue_row. rewrite decide_True by done. by rewrite Hw, He.
Qed.

Lemma by_key_singleton (w e : string) (db : Store) (x : Invitation) :
  Db.invitations_by_key w e db = [x] → inv_workspace_id x = w ∧ inv_email x = e.
Proof.
  intros Hkey.
  assert (x ∈ Db.invitations_by_key w e db) as Hin by (rewrite Hkey; left).
  by apply list_elem_of_filter in Hin as [? _].
Qed.

(** X3.  Re-inviting updates the row in place: an existing row of the key keeps
    its id and its [accepted_at] while role, status and inviter are
    rewritten. *)
Theorem reissue_keeps_the_row (env : Env) (body : Body) (db : Store) (x : Invitation) :
  let w := Js.interpolate (workspaceId body) in
  let e := Js.interpolate (email body) in
  Js.truthy (email body) = true → Js.truthy (workspaceId body) = true →
  ledger_writes_succeed env → issuer_admits env w db = true →
  Db.invitations_by_key w e db = [x] →
  Db.invitations_by_key w e (snd (fst (POST env (Some body) db)))
  = [ {| inv_id := inv_id x;
         inv_workspace_id := w;
         inv_email := e;
         inv_role := Js.or_default (role body) "member";
         inv_status := "pending";
         inv_invited_by := issuer_id env;
         inv_accepted_at := inv_accepted_at x |} ].
Proof.
  intros w e He Hw Hfaults Hadmit Hkey.
  rewrite (POST_existing_row env body db x He Hw Hfaults Hadmit Hkey).
  subst w e.
  destruct (send_invitation_store env body
              (Db.reissue (Js.interpolate (workspaceId body)) (Js.interpolate (email body))
                 (Js.or_default (role body) "member") (issuer_id env) db))
    as (? & ? & -> & _).
  cbn [fst snd]. rewrite by_key_reissue, Hkey. cbn [fmap list_fmap].
  destruct (by_key_singleton _ _ _ _ Hkey).
  by rewrite reissue_row_at_key.
Qed.

End IssuerFrame.

(** ** The reconciler: failures, success, repetition *)

Section ReconcilerOutcomes.

Import ConfirmEmail.

(** The two ways a call can end: without success and without a write, or
    with the reply 200 and the membership of the one pending row. *)
Lemma POST_outcome (env : Env) (request : Request) (db : Store) :
  (status (fst (POST env request db)) ≠ 200 ∧ snd (POST env request db) = db)
  ∨ ∃ e uid inviteData db1,
      request = Some {| email := Some e; userId := Some uid |}
      ∧ Db.invitations_by_email_status e "pending" db = [inviteData]
      ∧ Db.insert_member (membership_of inviteData uid) db = Some db1
      ∧ POST env request db =
        (Json 200 true "User added to workspace successfully",
         if update_fault env then db1
         else Db.mark_accepted (now env) (inv_workspace_id inviteData) e db1).
Proof.
  unfold POST.
  case_bool_decide; [by left|].
  destruct request as [[em ui]|]; [|by left]; simpl.
  destruct (negb (Js.truthy em) || negb (Js.truthy ui)) eqn:Hfields; [by left|].
  apply orb_false_elim in Hfields as [He Hu].
  apply negb_false_iff in He, Hu.
  destruct em as [e|]; [|done]. destruct ui as [uid|]; [|done]. simpl.
  destruct (getUserById env uid) as [|[user|]]; try by left.
  destruct (negb (Js.truthy (email_confirmed_at user))); [by left|].
  destruct (lookup_fault env); [by left|].
  destruct (Db.single _) as [inviteData|] eqn:Hsingle; [|by left].
  apply single_Some in Hsingle.
  destruct (insert_fault env); [by left|].
  destruct (Db.insert_member _ db) as [db1|] eqn:Hins; [|by left].
  right. by exists e, uid, inviteData, db1.
Qed.

(** X4.  A reply other than 200 means nothing was written, whatever the
    request and whatever failed. *)
Theorem reconcile_failure_changes_nothing (env : Env) (request : Request) (db : Store) :
  status (fst (POST env request db)) ≠ 200 → snd (POST env request db) = db.
Proof.
  intros Hstatus.
  destruct (POST_outcome env request db) as [[_ Hsame]|(e & uid & inv & d1 & _ & _ & _ & Heq)].
  - done.
  - by rewrite Heq in Hstatus.
Qed.

(** X5.  A reply 200 means: the email of the request had exactly one pending
    row, and the store gained exactly the membership of that row for the
    user of the request, with the row's role ([member] for an empty role);
    the ledger changed at most by the acceptance of that row's key. *)
Theorem reconcile_success_adds_the_invited_membership
    (env : Env) (request : Request) (db db' : Store) (reply : Response) :
  POST env request db = (reply, db') → status reply = 200 →
  ∃ e uid inviteData,
    request = Some {| email := Some e; userId := Some uid |}
    ∧ Db.invitations_by_email_status e "pending" db = [inviteData]
    ∧ workspace_members db' = (workspace_members db ++ [membership_of inviteData uid])%list
    ∧ Db.members_by_key (inv_workspace_id inviteData) uid db = []
    ∧ user_roles db' = user_roles db
    ∧ workspace_invitations db' =
      if update_fault env then workspace_invitations db
      else Db.accept_row (now env) (inv_workspace_id inviteData) e <$> workspace_invitations db.
Proof.
  intros Hpost Hstatus.
  destruct (POST_outcome env request db)
    as [[Hno _]|(e & uid & inv & d1 & Hreq & Hrows & Hins & Heq)].
  - by rewrite Hpost in Hno.
  - rewrite Hpost in Heq. injection Heq as _ ->.
    exists e, uid, inv. split; [done|]. split; [done|].
    pose proof (insert_member_fresh _ _ _ Hins) as Hfresh. simpl in Hfresh.
    unfold Db.insert_member in Hins. simpl in Hins. rewrite Hfresh in Hins.
    injection Hins as <-.
    destruct (update_fault env); by repeat split.
Qed.

Variables (env1 env2 : Env) (e uid : string) (user : AuthUser).

Hypothesis key_configured : SUPABASE_SERVICE_ROLE_KEY env2 ≠ "".
Hypothesis user_found : getUserById env2 uid = GetUserData (Some user).
Hypothesis user_confirmed : Js.truthy (email_confirmed_at user) = true.

Let request : Request := Some {| email := Some e; userId := Some uid |}.

(** X6.  After a reconcile that answered 200 and marked the row accepted, a
    second reconcile for the same email finds no pending row: it answers
    404 and changes nothing, so the membership stays single. *)
Theorem reconcile_again_is_a_no_op (db db1 : Store) (reply1 : Response) :
  POST env1 request db = (reply1, db1) → status reply1 = 200 →
  update_fault env1 = false →
  POST env2 request db1 = (Json 404 false "No pending invitation found", db1).
Proof.
  intros Hpost Hstatus Hupdate.
  destruct (POST_outcome env1 request db)
    as [[Hno _]|(e0 & uid0 & inv & d1 & Hreq & Hrows & Hins & Heq)];
    [by rewrite Hpost in Hno|].
  injection Hreq as <- <-.
  assert (workspace_invitations db1
          = Db.accept_row (now env1) (inv_workspace_id inv) e <$> workspace_invitations db)
    as Hledger.
  { rewrite Hpost, Hupdate in Heq. injection Heq as _ ->. simpl.
    by rewrite (insert_member_invitations _ _ _ Hins). }
  assert (e ≠ "" ∧ uid ≠ "") as [He Hu].
  { revert Hpost Hstatus. unfold POST, request.
    case_bool_decide; [by intros [= <- _]|]. simpl.
    repeat case_bool_decide; simpl; try by intros [= <- _]. done. }
  rewrite (POST_unfold env2 e uid user key_configured He Hu user_found), user_confirmed; simpl.
  assert (Db.invitations_by_email_status e "pending" db1 = []) as ->.
  { unfold Db.invitations_by_email_status. rewrite Hledger.
    destruct (filter _ _) as [|r rows] eqn:Hf; [done|]. exfalso.
    assert (r ∈ filter (λ r, inv_email r = e ∧ inv_status r = "pending")
                  (Db.accept_row (now env1) (inv_workspace_id inv) e <$> workspace_invitations db))
      as Hin by (rewrite Hf; left).
    apply list_elem_of_filter in Hin as [[Hre Hrs] Hin].
    apply list_elem_of_fmap in Hin as (r0 & -> & Hin0).
    unfold Db.accept_row in Hre, Hrs. case_decide as Hk; [done|].
    assert (r0 ∈ Db.invitations_by_email_status e "pending" db) as Hr0
      by (by apply list_elem_of_filter).
    rewrite Hrows in Hr0. apply list_elem_of_singleton in Hr0. subst r0.
    by apply Hk. }
  by destruct (lookup_fault env2).
Qed.

End ReconcilerOutcomes.

(** ** The sweeps of the login *)

Section Sweeps.

(** The role the provider's sweep writes comes from the URL alone. *)
Lemma provider_role (urlInviteRole a b : Js.value) :
  Js.or_default
    (Js.or (Js.or (Some (Js.or_default urlInviteRole "member")) a) b) "member"
  = Js.or_default urlInviteRole "member".
Proof.
  assert (Js.or_default urlInviteRole "member" ≠ "") as Hne.
  { unfold Js.or_default. destruct urlInviteRole as [s|]; [|done].
    by case_bool_decide. }
  unfold Js.or at 2. rewrite (truthy_Some _ Hne).
  unfold Js.or. rewrite (truthy_Some _ Hne).
  by apply or_default_nonempty.
Qed.

(** What the provider's sweep can do to the store: nothing, or one insert
    of a membership for the signed-in user with the role of the URL,
    followed at most by an acceptance in the ledger. *)
Lemma processPendingInvitations_effect (env : AuthContext.Env) (uid : string)
    (ls : LocalStorage) (db : Store) :
  snd (AuthContext.processPendingInvitations env uid ls db) = db
  ∨ ∃ w db1,
      Db.insert_member
        {| mem_workspace_id := w; mem_user_id := uid;
           mem_role := Js.or_default
                         (Uri.get "invite_role" (AuthContext.location_search env)) "member" |}
        db = Some db1
      ∧ (snd (AuthContext.processPendingInvitations env uid ls db) = db1
         ∨ ∃ t e, snd (AuthContext.processPendingInvitations env uid ls db)
                  = Db.mark_accepted t w e db1).
Proof.
  unfold AuthContext.processPendingInvitations. cbv zeta.
  rewrite provider_role.
  destruct (negb _ && negb _); [by left|].
  destruct (negb (Js.truthy _)); [by left|].
  destruct (if AuthContext.member_check_fault env then None else Db.single _); [by left|].
  destruct (AuthContext.insert_fault env); [by left|].
  destruct (Db.insert_member _ db) as [db1|] eqn:Hins; [|by left].
  right. eexists _, db1. split; [exact Hins|].
  destruct (AuthContext.update_fault env); simpl; eauto.
Qed.

(** X8.  A membership that appears during the provider's sweep belongs to the
    signed-in user and has the role named in the URL, [member] when the URL
    names none: the role kept in localStorage is never used. *)
Theorem provider_sweep_takes_the_role_from_the_url
    (env : AuthContext.Env) (uid : string) (ls : LocalStorage) (db : Store) (m : Member) :
  m ∈ workspace_members (snd (AuthContext.processPendingInvitations env uid ls db)) →
  m ∉ workspace_members db →
  mem_user_id m = uid
  ∧ mem_role m
    = Js.or_default (Uri.get "invite_role" (AuthContext.location_search env)) "member".
Proof.
  intros Hin Hnew.
  assert (∀ db1 member, Db.insert_member member db = Some db1 →
            m ∈ workspace_members db1 → m = member) as Hone.
  { intros db1 member Hins Hm. unfold Db.insert_member in Hins.
    destruct (Db.members_by_key _ _ db); [|done]. injection Hins as <-. simpl in Hm.
    apply elem_of_app in Hm as [Hm|Hm]; [done|]. by apply list_elem_of_singleton in Hm. }
  destruct (processPendingInvitations_effect env uid ls db)
    as [Heq|(w & db1 & Hins & [Heq|(t & e & Heq)])]; rewrite Heq in Hin.
  - done.
  - by rewrite (Hone db1 _ Hins Hin).
  - simpl in Hin. by rewrite (Hone db1 _ Hins Hin).
Qed.

(** X9.  A signed-in user who is a member already: the provider's sweep
    reports success, removes its five flags and leaves the store alone. *)
Theorem provider_sweep_skips_a_member
    (env : AuthContext.Env) (uid w : string) (ls : LocalStorage) (db : Store) (m : Member) :
  Uri.get "invitation" (AuthContext.location_search env) ≠ Some "true" →
  Uri.get "workspace_id" (AuthContext.location_search env) = None →
  ls !! "process_pending_invitation" = Some "true" →
  Js.or (ls !! "pending_workspace_id") (ls !! "pending_invitation_workspace_id") = Some w →
  w ≠ "" →
  AuthContext.member_check_fault env = false →
  Db.members_by_key w uid db = [m] →
  AuthContext.processPendingInvitations env uid ls db
  = (true, AuthContext.clear_flags ls, db).
Proof.
  intros Hurl Hurlw Hflag Hw Hne Hfault Hm.
  unfold AuthContext.processPendingInvitations. cbv zeta.
  rewrite Hurlw, Hflag, Hfault.
  rewrite (bool_decide_eq_false_2 _ Hurl), bool_decide_eq_true_2 by done.
  cbn [andb negb].
  assert (Js.or (Js.or None (ls !! "pending_workspace_id"))
            (ls !! "pending_invitation_workspace_id") = Some w) as ->.
  { unfold Js.or at 2. cbn [Js.truthy]. exact Hw. }
  rewrite (truthy_Some _ Hne). cbn [negb Js.interpolate].
  by rewrite Hm.
Qed.

(** X10.  The storage the acceptance page leaves is what the login page looks
    for: a login with the same email, from a plain URL, is exactly one call
    of the reconciler, after which the markers are cleared. *)
Theorem login_after_acceptance_calls_the_reconciler
    (aenv : AcceptInvitation.Env) (data : AcceptInvitation.InvitationData)
    (avalues : AcceptInvitation.Values) (new_user : AuthUser)
    (env : LoginPage.Env) (values : LoginPage.Values) (user : AuthUser)
    (ls : LocalStorage) (db : Store) :
  AcceptInvitation.password avalues = AcceptInvitation.confirmPassword avalues →
  AcceptInvitation.signUp aenv (AcceptInvitation.values_email avalues)
    (AcceptInvitation.password avalues) = AcceptInvitation.SignUpData (Some new_user) →
  user_id new_user ≠ "" → AcceptInvitation.workspaceId data ≠ "" →
  ls !! "process_pending_invitation" ≠ Some "true" →
  Uri.get "invitation" (AuthContext.location_search (LoginPage.auth env)) ≠ Some "true" →
  AuthContext.signInWithPassword (LoginPage.auth env) (LoginPage.email values)
    (LoginPage.password values) ≠ AuthContext.SignInError →
  LoginPage.getUser env = Some user → LoginPage.confirm_unreachable env = false →
  LoginPage.email values = AcceptInvitation.values_email avalues →
  let '(_, ls1, db1) := AcceptInvitation.onFinish aenv (Some data) avalues ls db in
  LoginPage.onFinish env values ls1 db1
  = (LoginPage.Redirect "/dashboard", LoginPage.clear_markers ls1,
     LoginPage.confirm env values user db1).
Proof.
  intros Hpw Hup Huid Hw Hflag Hurl Hsign Huser Hreach Hemail.
  unfold AcceptInvitation.onFinish.
  rewrite (bool_decide_eq_true_2 _ Hpw), Hup; simpl.
  set (ls1 := <["pending_confirmation_email" := _]> _).
  set (db1 := if AcceptInvitation.update_fault aenv then _ else _).
  unfold LoginPage.onFinish.
  destruct (signIn_idle (LoginPage.auth env) (LoginPage.email values)
              (LoginPage.password values) ls1 db1) as [err Hidle].
  { unfold ls1. by rewrite !lookup_insert_ne. }
  { done. }
  rewrite Hidle.
  assert (err = false) as ->.
  { unfold AuthContext.signIn in Hidle.
    destruct (AuthContext.signInWithPassword _ _ _) as [|[u|]]; [done| |].
    - destruct (AuthContext.processPendingInvitations _ _ _ _) as [[? ?] ?].
      by injection Hidle.
    - by injection Hidle. }
  apply sweep_confirm_branch; try done; unfold ls1.
  - rewrite lookup_insert_ne, lookup_insert_ne, lookup_insert_eq by done.
    by apply truthy_Some.
  - by rewrite lookup_insert_eq, Hemail.
  - rewrite lookup_insert_ne, lookup_insert_eq by done. by apply truthy_Some.
Qed.

End Sweeps.

(** ** From the issuer to the mail and to the acceptance page *)

Section MailedLink.

Import Uri.

Local Open Scope string_scope.

Lemma or_default_idem (v : Js.value) (d : string) :
  d ≠ "" → Js.or_default (Some (Js.or_default v d)) d = Js.or_default v d.
Proof.
  intros Hd. unfold Js.or_default. destruct v as [s|].
  - by repeat case_bool_decide.
  - by rewrite bool_decide_eq_false_2.
Qed.

(** [get] on a list of pairs, pair by pair. *)
Lemma get_cons (name k v : string) (rest : list (string * string)) :
  get name ((k, v) :: rest) = if bool_decide (k = name) then Some v else get name rest.
Proof.
  unfold get. case_bool_decide.
  - by rewrite filter_cons_True.
  - by rewrite filter_cons_False.
Qed.

Lemma targetLink_nonempty (env : CreateInvitation.Env) (body : CreateInvitation.Body) :
  CreateInvitation.targetLink env body ≠ "".
Proof.
  unfold CreateInvitation.targetLink.
  destruct (CreateInvitation.base_url env); [|by rewrite append_cons].
  change ("" ++ ?x) with x. by rewrite append_cons.
Qed.

(** What leaves the issuer for the mail route. *)
Lemma POST_mail_request (env : CreateInvitation.Env) (body : CreateInvitation.Body)
    (db db' : Store) (reply : Response) (request : CreateInvitation.MailRequest) :
  CreateInvitation.POST env (Some body) db = (reply, db', Some request) →
  Js.truthy (CreateInvitation.email body) = true
  ∧ Js.truthy (CreateInvitation.workspaceId body) = true
  ∧ request =
    {| CreateInvitation.mail_email := Js.interpolate (CreateInvitation.email body);
       CreateInvitation.mail_workspaceId := Js.interpolate (CreateInvitation.workspaceId body);
       CreateInvitation.mail_role := Js.or_default (CreateInvitation.role body) "member";
       CreateInvitation.mail_workspaceName := CreateInvitation.workspaceName body;
       CreateInvitation.mail_existingUser := CreateInvitation.check_user_exists env;
       CreateInvitation.mail_targetLink := CreateInvitation.targetLink env body |}.
Proof.
  unfold CreateInvitation.POST.
  destruct (Js.truthy (CreateInvitation.email body)),
    (Js.truthy (CreateInvitation.workspaceId body)); simpl; try done.
  intros Hpost. split; [done|split; [done|]].
  match goal with
  | |- request = ?expected =>
      assert (∀ d, CreateInvitation.send_invitation env body d = (reply, db', Some request) →
                   request = expected) as Hsend
  end.
  { intros d. unfold CreateInvitation.send_invitation.
    destruct (CreateInvitation.mail env); by intros [= _ _ <-]. }
  destruct (CreateInvitation.session env) as [user|].
  - destruct (negb _ && negb _); [done|].
    destruct (CreateInvitation.upsert _ _ _ _ _ _); [done|]. eauto.
  - destruct (CreateInvitation.upsert_bypass _ _ _ _ _ _); [done|]. eauto.
Qed.

(** X11.  The mail route accepts what the issuer posts, addresses the message to
    the invitee and puts the issuer's link, not one of its own, into the
    text of the message. *)
Theorem mail_route_sends_the_link_of_the_issuer
    (env : CreateInvitation.Env) (menv : SendInvitationEmail.Env)
    (body : CreateInvitation.Body) (db db' : Store) (reply : Response)
    (request : CreateInvitation.MailRequest) :
  CreateInvitation.POST env (Some body) db = (reply, db', Some request) →
  ∃ message,
    snd (SendInvitationEmail.POST menv (Some (SendInvitationEmail.of_issuer request)))
    = Some message
    ∧ SendInvitationEmail.to message = Js.interpolate (CreateInvitation.email body)
    ∧ SendInvitationEmail.text_plain message
      = "You've been invited to join "
          ++ Js.interpolate (CreateInvitation.workspaceName body)
          ++ " as a " ++ Js.or_default (CreateInvitation.role body) "member"
          ++ ". Click the link to set up your password: "
          ++ CreateInvitation.targetLink env body.
Proof.
  intros Hpost. apply POST_mail_request in Hpost as (He & Hw & ->).
  apply truthy_interpolate in He as [He1 He2].
  apply truthy_interpolate in Hw as [Hw1 Hw2].
  unfold SendInvitationEmail.POST, SendInvitationEmail.of_issuer; cbn [
    SendInvitationEmail.email SendInvitationEmail.workspaceId
    CreateInvitation.mail_email CreateInvitation.mail_workspaceId].
  rewrite !truthy_Some by done. cbn [negb orb].
  eexists. split.
  { destruct (SendInvitationEmail.sendgrid menv); reflexivity. }
  split; [reflexivity|].
  cbn [SendInvitationEmail.text_plain]. unfold SendInvitationEmail.text,
    SendInvitationEmail.invitationLink.
  cbn [SendInvitationEmail.workspaceName SendInvitationEmail.role
       SendInvitationEmail.targetLink CreateInvitation.mail_workspaceName
       CreateInvitation.mail_role CreateInvitation.mail_targetLink].
  rewrite or_default_idem by done.
  by rewrite (or_default_nonempty _ _ (targetLink_nonempty env body)).
Qed.

(** X12.  The link the mail route would build by itself, were it sent none, is
    the issuer's link when both run with the same base URL. *)
Theorem mail_route_default_link_is_the_issuer_link
    (env : CreateInvitation.Env) (menv : SendInvitationEmail.Env)
    (body : CreateInvitation.Body) (db db' : Store) (reply : Response)
    (request : CreateInvitation.MailRequest) :
  SendInvitationEmail.NEXT_PUBLIC_BASE_URL menv = CreateInvitation.NEXT_PUBLIC_BASE_URL env →
  CreateInvitation.POST env (Some body) db = (reply, db', Some request) →
  SendInvitationEmail.default_link menv (SendInvitationEmail.of_issuer request)
  = CreateInvitation.mail_targetLink request.
Proof.
  intros Hbase Hpost. apply POST_mail_request in Hpost as (He & Hw & ->).
  unfold SendInvitationEmail.default_link, SendInvitationEmail.of_issuer,
    SendInvitationEmail.base_url, CreateInvitation.targetLink, CreateInvitation.base_url.
  cbn [SendInvitationEmail.email SendInvitationEmail.workspaceId
       SendInvitationEmail.workspaceName SendInvitationEmail.role
       CreateInvitation.mail_email CreateInvitation.mail_workspaceId
       CreateInvitation.mail_workspaceName CreateInvitation.mail_role
       CreateInvitation.mail_targetLink Js.interpolate].
  by rewrite Hbase, or_default_idem.
Qed.

(** X13.  A mail goes to SendGrid exactly for a request that names email and
    workspace, and the route reports success exactly when SendGrid took
    the message. *)
Theorem mail_route_success
    (menv : SendInvitationEmail.Env) (request : SendInvitationEmail.Request) :
  (is_Some (snd (SendInvitationEmail.POST menv request))
   ↔ ∃ body, request = Some body
             ∧ Js.truthy (SendInvitationEmail.email body) = true
             ∧ Js.truthy (SendInvitationEmail.workspaceId body) = true)
  ∧ (success (fst (SendInvitationEmail.POST menv request)) = true
     ↔ SendInvitationEmail.sendgrid menv = SendInvitationEmail.Accepted
       ∧ is_Some (snd (SendInvitationEmail.POST menv request))).
Proof.
  unfold SendInvitationEmail.POST. destruct request as [body|]; simpl.
  - destruct (Js.truthy (SendInvitationEmail.email body)) eqn:He,
      (Js.truthy (SendInvitationEmail.workspaceId body)) eqn:Hw; simpl.
    + split.
      * split; [intros _; by exists body|].
        intros _. destruct (SendInvitationEmail.sendgrid menv); by eexists.
      * destruct (SendInvitationEmail.sendgrid menv); simpl; split; try done;
          try (by intros [? _]).
    + split; [split; [by intros [? ?]|intros (? & [= <-] & ? & ?); congruence]|].
      split; [done|]. by intros [_ [? ?]].
    + split; [split; [by intros [? ?]|intros (? & [= <-] & ? & ?); congruence]|].
      split; [done|]. by intros [_ [? ?]].
    + split; [split; [by intros [? ?]|intros (? & [= <-] & ? & ?); congruence]|].
      split; [done|]. by intros [_ [? ?]].
  - split; [split; [by intros [? ?]|by intros (? & ? & _)]|].
    split; [done|]. by intros [_ [? ?]].
Qed.

Variables (env : CreateInvitation.Env) (body : CreateInvitation.Body).

Let e : string := Js.interpolate (CreateInvitation.email body).
Let w : string := Js.interpolate (CreateInvitation.workspaceId body).
Let r : string := Js.or_default (CreateInvitation.role body) "member".
Let n : string := Js.interpolate (CreateInvitation.workspaceName body).

Hypothesis base_plain :
  free "?" (CreateInvitation.base_url env) = true
  ∧ free "#" (CreateInvitation.base_url env) = true.
Hypothesis w_token : token w = true.
Hypothesis r_token : token r = true.
Hypothesis e_given : Js.truthy (CreateInvitation.email body) = true.
Hypothesis w_given : Js.truthy (CreateInvitation.workspaceId body) = true.

(** X14.  The acceptance page reads back from the link what the issuer put into
    it: the email, the workspace id and the role of the request; the
    workspace name too, with [Workspace] for an empty one. *)
Theorem acceptance_page_reads_the_link_back :
  AcceptInvitation.extract (searchParams (CreateInvitation.targetLink env body))
  = Some {| AcceptInvitation.email := e;
            AcceptInvitation.workspaceId := w;
            AcceptInvitation.inviteRole := r;
            AcceptInvitation.workspaceName := Js.or_default (Some n) "Workspace" |}.
Proof.
  rewrite (targetLink_params env body base_plain w_token r_token).
  apply truthy_interpolate in e_given as [_ He].
  apply truthy_interpolate in w_given as [_ Hw].
  unfold AcceptInvitation.extract. rewrite !get_cons.
  repeat case_bool_decide; try done.
  rewrite !truthy_Some by done. cbn [andb Js.interpolate].
  unfold r. by rewrite or_default_idem.
Qed.

End MailedLink.

(** ** The dashboard *)

Section Dashboard.

Import Uri.

Local Open Scope string_scope.

(** No piece of a split contains the separator. *)
Lemma split_on_pieces_free (sep : ascii) (s : string) :
  Forall (λ piece, free sep piece = true) (split_on sep s).
Proof.
  induction s as [|c s IH]; simpl.
  - by repeat constructor.
  - destruct (Ascii.eqb c sep) eqn:Hc.
    + by constructor.
    + destruct (split_on sep s) as [|piece pieces].
      * repeat constructor. unfold free; simpl. by rewrite Hc.
      * inversion_clear IH as [|? ? Hpiece Hpieces]. constructor; [|done].
        apply free_cons. by split.
Qed.

(** The ids [removeMember] hands to the store. *)
Lemma removeMember_ids (compositeId : string) :
  free "-" (Js.interpolate (split_on "-" compositeId !! 0)) = true
  ∧ free "-" (Js.interpolate (split_on "-" compositeId !! 1)) = true.
Proof.
  pose proof (split_on_pieces_free "-" compositeId) as Hfree.
  rewrite Forall_lookup in Hfree.
  split.
  - destruct (split_on "-" compositeId !! 0) as [p|] eqn:Hp; [by eapply Hfree|done].
  - destruct (split_on "-" compositeId !! 1) as [p|] eqn:Hp; [by eapply Hfree|done].
Qed.

(** X15.  Whatever composite id it is given, [removeMember] removes members
    only under a workspace id and a user id without hyphen: a member whose
    workspace id or user id contains one (as every UUID does) is never
    removed. *)
Theorem removeMember_never_removes_a_hyphenated_id
    (fault : bool) (compositeId : string) (db : Store) (m : Member) :
  m ∈ workspace_members db →
  m ∉ workspace_members (snd (MembersContext.removeMember fault compositeId db)) →
  free "-" (mem_workspace_id m) = true ∧ free "-" (mem_user_id m) = true.
Proof.
  intros Hin Hout. unfold MembersContext.removeMember in Hout. cbv zeta in Hout.
  destruct fault; [done|]. simpl in Hout.
  destruct (removeMember_ids compositeId) as [Hw Hu].
  destruct (decide (mem_workspace_id m = Js.interpolate (split_on "-" compositeId !! 0)
                    ∧ mem_user_id m = Js.interpolate (split_on "-" compositeId !! 1)))
    as [[-> ->]|Hne]; [done|].
  exfalso. apply Hout. by apply list_elem_of_filter.
Qed.

(** X16.  In a store whose membership rows all have a hyphen in the
    workspace id or in the user id (every row, when the ids are UUIDs)
    [removeMember] removes nothing, whatever composite id it is given: the
    store is as before, and unless the store answers with an error the call
    still reports success. *)
Theorem removeMember_leaves_a_uuid_store_unchanged
    (fault : bool) (compositeId : string) (db : Store) :
  (∀ m, m ∈ workspace_members db →
        free "-" (mem_workspace_id m) = false ∨ free "-" (mem_user_id m) = false) →
  MembersContext.removeMember fault compositeId db = (negb fault, db).
Proof.
  intros Hrows. unfold MembersContext.removeMember. cbv zeta.
  destruct fault; [done|]. simpl. f_equal.
  destruct (removeMember_ids compositeId) as [Hw Hu].
  unfold MembersContext.delete_member, Db.set_members.
  destruct db as [invitations members roles next]. simpl in *. f_equal.
  induction members as [|m members IH]; [done|].
  rewrite filter_cons_True.
  - f_equal. apply IH. intros m' Hin. apply Hrows. by right.
  - intros [Hmw Hmu]. destruct (Hrows m) as [H|H]; [by left| |]; congruence.
Qed.

(** X17.  [inviteMember] invites as [member] and nothing else: with a workspace
    selected, an admitted caller and a ledger that answers, the call ends
    with the reply of the issuer and leaves one pending row of role
    [member] for the email in the selected workspace. *)
Theorem inviteMember_invites_as_member
    (env : MembersContext.Env) (email w : string) (db : Store) :
  MembersContext.currentWorkspace env = Some w → w ≠ "" → email ≠ "" →
  MembersContext.unreachable env = false →
  ledger_writes_succeed (MembersContext.issuer env) →
  ledger_unique_at w email db →
  issuer_admits (MembersContext.issuer env) w db = true →
  ∃ reply db',
    MembersContext.inviteMember env email db = (MembersContext.Answer reply, db')
    ∧ written w email "member" (issuer_id (MembersContext.issuer env)) db db'.
Proof.
  intros Hcur Hw He Hreach Hfaults Huniq Hadmit.
  unfold MembersContext.inviteMember. rewrite Hcur, Hreach, (truthy_Some _ Hw).
  cbn [negb].
  destruct (POST_admitted (MembersContext.issuer env) (MembersContext.invite_body env email) db)
    as (db' & Hwritten & ->); simpl; rewrite ?Hcur; simpl;
    try done; try by apply truthy_Some.
  destruct (send_invitation_store (MembersContext.issuer env)
              (MembersContext.invite_body env email) db') as (reply & request & -> & _).
  exists reply, db'. split; [done|].
  unfold MembersContext.invite_body in Hwritten; simpl in Hwritten.
  by rewrite Hcur in Hwritten.
Qed.

Lemma by_key_set_status (st : string) (i : nat) (w e : string) (db : Store) :
  Db.invitations_by_key w e (Db.set_status_by_id st i db)
  = Db.set_status_row st i <$> Db.invitations_by_key w e db.
Proof.
  unfold Db.invitations_by_key, Db.set_status_by_id; simpl.
  apply filter_fmap_preserving. intros x.
  destruct (set_status_row_key i st x) as (-> & -> & _). done.
Qed.

(** Once row [i] has a status other than [pending], an email whose pending
    rows were row [i] alone has no pending row. *)
Lemma pending_after_set_status (st : string) (i : nat) (e : string) (db : Store) :
  st ≠ "pending" →
  (∀ r, r ∈ Db.invitations_by_email_status e "pending" db → inv_id r = i) →
  Db.invitations_by_email_status e "pending" (Db.set_status_by_id st i db) = [].
Proof.
  intros Hst Hrows. apply elem_of_nil_inv. intros x Hin.
  apply list_elem_of_filter in Hin as [[He Hpending] Hin]. simpl in Hin.
  apply list_elem_of_fmap in Hin as (r & -> & Hr).
  unfold Db.set_status_row in He, Hpending. case_decide as Hid; [done|].
  apply Hid, Hrows. by apply list_elem_of_filter.
Qed.

(** X18.  The provider's [cancelInvitation] writes the status [expired]; the
    reconciler then finds nothing to reconcile for an email whose only
    pending invitation was the cancelled one: whoever asks, it answers
    without success and writes nothing. *)
Theorem expired_invitation_is_not_reconciled
    (env : ConfirmEmail.Env) (e : string) (userId : Js.value) (i : nat) (db : Store) :
  (∀ r, r ∈ Db.invitations_by_email_status e "pending" db → inv_id r = i) →
  let '(ok, db1) := WorkspaceContext.cancelInvitation false i db in
  let '(reply, db2) :=
    ConfirmEmail.POST env
      (Some {| ConfirmEmail.email := Some e; ConfirmEmail.userId := userId |}) db1 in
  ok = true ∧ status reply ≠ 200 ∧ db2 = db1
  ∧ workspace_members db2 = workspace_members db.
Proof.
  intros Hrows. unfold WorkspaceContext.cancelInvitation.
  pose proof (pending_after_set_status "expired" i e db ltac:(done) Hrows) as Hnone.
  destruct (POST_outcome env
              (Some {| ConfirmEmail.email := Some e; ConfirmEmail.userId := userId |})
              (Db.set_status_by_id "expired" i db))
    as [[Hstatus Hsame]|(e0 & uid0 & inv & d1 & Hreq & Hpending & _)].
  - destruct (ConfirmEmail.POST _ _ _) as [reply db2]. simpl in *. by subst db2.
  - injection Hreq as <- _. by rewrite Hnone in Hpending.
Qed.

(** X19.  [resendInvitation] for a row the provider still lists: the issuer
    rewrites the ledger row of the listed (workspace, email) in place, so
    whatever its status was (expired after a cancellation, say) it is
    pending again under its old id, with the listed role; this holds
    whether or not the mail went out, and the call reports success exactly
    when it did. *)
Theorem resendInvitation_revives_the_row
    (env : WorkspaceContext.Env) (i : nat) (db : Store) (listed x : Invitation) :
  head (filter (λ inv, inv_id inv = i) (WorkspaceContext.invitations env)) = Some listed →
  inv_email listed ≠ "" → inv_workspace_id listed ≠ "" →
  WorkspaceContext.unreachable env = false →
  ledger_writes_succeed (WorkspaceContext.issuer env) →
  issuer_admits (WorkspaceContext.issuer env) (inv_workspace_id listed) db = true →
  Db.invitations_by_key (inv_workspace_id listed) (inv_email listed) db = [x] →
  let '(outcome, db') := WorkspaceContext.resendInvitation env i db in
  Db.invitations_by_key (inv_workspace_id listed) (inv_email listed) db'
  = [ {| inv_id := inv_id x;
         inv_workspace_id := inv_workspace_id listed;
         inv_email := inv_email listed;
         inv_role := Js.or_default (Some (inv_role listed)) "member";
         inv_status := "pending";
         inv_invited_by := issuer_id (WorkspaceContext.issuer env);
         inv_accepted_at := inv_accepted_at x |} ]
  ∧ (outcome = WorkspaceContext.Resent
     ↔ CreateInvitation.mail (WorkspaceContext.issuer env) = CreateInvitation.MailSent).
Proof.
  intros Hlisted He Hw Hreach Hfaults Hadmit Hkey.
  unfold WorkspaceContext.resendInvitation. rewrite Hlisted, Hreach.
  rewrite (POST_existing_row (WorkspaceContext.issuer env)
             (WorkspaceContext.resend_body env listed) db x);
    try done; try by apply truthy_Some.
  cbn [WorkspaceContext.resend_body CreateInvitation.workspaceId CreateInvitation.email
       CreateInvitation.role Js.interpolate].
  set (db1 := Db.reissue _ _ _ _ db).
  assert (Db.invitations_by_key (inv_workspace_id listed) (inv_email listed) db1
          = [ {| inv_id := inv_id x;
                 inv_workspace_id := inv_workspace_id listed;
                 inv_email := inv_email listed;
                 inv_role := Js.or_default (Some (inv_role listed)) "member";
                 inv_status := "pending";
                 inv_invited_by := issuer_id (WorkspaceContext.issuer env);
                 inv_accepted_at := inv_accepted_at x |} ]) as Hrow.
  { unfold db1. rewrite by_key_reissue, Hkey. cbn [fmap list_fmap].
    destruct (by_key_singleton _ _ _ _ Hkey). by rewrite reissue_row_at_key. }
  unfold CreateInvitation.send_invitation.
  destruct (CreateInvitation.mail (WorkspaceContext.issuer env)); cbn [success negb].
  - split; [|done].
    destruct (WorkspaceContext.update_fault env); [done|].
    rewrite by_key_set_status, Hrow. cbn [fmap list_fmap].
    unfold Db.set_status_row. by case_decide.
  - by split.
  - by split.
  - by split.
Qed.

(** X20.  A row leaves the table of workspaces through [deleteWorkspace] only
    when it is the workspace named, the store did the delete, and the
    provider's list did not show that workspace as default or SuperAdmin
    workspace. *)
Theorem deleteWorkspace_removes_only_the_unflagged_target
    (fault : bool) (workspaces table : list WorkspaceContext.Workspace)
    (workspaceId : string) (w : WorkspaceContext.Workspace) :
  w ∈ table →
  w ∉ snd (fst (WorkspaceContext.deleteWorkspace fault workspaces workspaceId table)) →
  WorkspaceContext.ws_id w = workspaceId
  ∧ fst (fst (WorkspaceContext.deleteWorkspace fault workspaces workspaceId table))
    = WorkspaceContext.Deleted
  ∧ ∀ listed, WorkspaceContext.find_workspace workspaceId workspaces = Some listed →
              WorkspaceContext.is_default listed = false
              ∧ WorkspaceContext.is_superadmin_workspace listed = false.
Proof.
  unfold WorkspaceContext.deleteWorkspace. cbv zeta.
  destruct (_ || _) eqn:Hguard; [done|].
  destruct fault; [done|]. simpl.
  intros Hin Hout. split; [|split; [done|]].
  - destruct (decide (WorkspaceContext.ws_id w = workspaceId)) as [|Hne]; [done|].
    exfalso. apply Hout. by apply list_elem_of_filter.
  - intros listed Hlisted. rewrite Hlisted in Hguard. simpl in Hguard.
    by apply orb_false_elim in Hguard.
Qed.

End Dashboard.

(** ** Validation and sanitizing *)

Section Validators.

Import Uri Validation.

Local Open Scope string_scope.

(** X21.  A password is accepted exactly when it has eight UTF-16 units or more
    and a character of each of the four classes; the test for the empty
    password adds nothing to the verdict. *)
Theorem validatePassword_accepts (password : string) :
  isValid (validatePassword password) = true
  ↔ (8 ≤ Validation.length password)%nat
    ∧ some_char is_upper password = true
    ∧ some_char is_lower password = true
    ∧ some_char is_digit password = true
    ∧ some_char is_special password = true.
Proof.
  unfold validatePassword.
  case_bool_decide as Hempty.
  { subst password. simpl. split; [done|]. intros [? _]. lia. }
  destruct (Validation.length password <? 8)%nat eqn:Hlen.
  { apply Nat.ltb_lt in Hlen. simpl. split; [done|]. intros [? _]. lia. }
  apply Nat.ltb_ge in Hlen.
  destruct (some_char is_upper password), (some_char is_lower password),
    (some_char is_digit password), (some_char is_special password); simpl;
    split; try done; intros (_ & ? & ? & ? & ?); done.
Qed.

Lemma username_char_unreserved (c : ascii) :
  is_username_char c = true → is_unreserved c = true ∧ units c = 1.
Proof.
  destruct c as [[] [] [] [] [] [] [] []]; vm_compute; try done.
Qed.

Lemma encode_token (s : string) : token s = true → encodeURIComponent s = s.
Proof.
  induction s as [|c s IH]; [done|]. unfold token; simpl.
  intros [Hc Hs]%andb_prop. rewrite Hc. by rewrite IH.
Qed.

Lemma username_chars (s : string) :
  chars_all is_username_char s = true →
  token s = true ∧ Validation.length s = String.length s.
Proof.
  induction s as [|c s IH]; [done|]. simpl.
  intros [Hc Hs]%andb_prop.
  destruct (username_char_unreserved c Hc) as [Hu H1].
  destruct (IH Hs) as [Ht Hl].
  unfold token in *; simpl. rewrite Hu, Ht, H1, Hl. done.
Qed.

(** X22.  A username is accepted exactly when it has 3 to 30 characters, all of
    them letters, digits, [_] or [-]; an accepted username is plain ASCII
    and goes into a URL as it is. *)
Theorem validateUsername_accepts (username : string) :
  (isValid (validateUsername username) = true
   ↔ (3 ≤ String.length username ≤ 30)%nat ∧ chars_all is_username_char username = true)
  ∧ (isValid (validateUsername username) = true →
     encodeURIComponent username = username).
Proof.
  assert (isValid (validateUsername username) = true
          ↔ (3 ≤ Validation.length username ≤ 30)%nat
            ∧ chars_all is_username_char username = true) as Hiff.
  { unfold validateUsername.
    case_bool_decide as Hempty.
    { subst username. simpl. split; [done|]. intros [? _]. lia. }
    destruct (Validation.length username <? 3)%nat eqn:Hlo.
    { apply Nat.ltb_lt in Hlo. simpl. split; [done|]. intros [? _]. lia. }
    destruct (30 <? Validation.length username)%nat eqn:Hhi.
    { apply Nat.ltb_lt in Hhi. simpl. split; [done|]. intros [? _]. lia. }
    apply Nat.ltb_ge in Hlo, Hhi.
    destruct (chars_all is_username_char username); simpl; split; try done.
    by intros [_ ?]. }
  split.
  - rewrite Hiff. split.
    + intros [Hlen Hchars]. destruct (username_chars _ Hchars) as [_ <-]. done.
    + intros [Hlen Hchars]. destruct (username_chars _ Hchars) as [_ ->]. done.
  - intros [_ Hchars]%Hiff. apply encode_token. by apply username_chars.
Qed.

End Validators.

Section Sanitizers.

Import Uri Sanitize.

Local Open Scope string_scope.

Lemma replace_all_app (c : ascii) (by_ a b : string) :
  replace_all c by_ (a ++ b) = replace_all c by_ a ++ replace_all c by_ b.
Proof.
  induction a as [|x a IH]; [done|].
  rewrite append_cons. simpl. by rewrite IH, append_assoc.
Qed.

(** The five passes on one character. *)
Lemma passes_char (x : ascii) :
  replace_all "'" "&#039;"
    (replace_all quote "&quot;"
       (replace_all ">" "&gt;"
          (replace_all "<" "&lt;"
             (replace_all "&" "&amp;" (String x "")))))
  = escape_char x.
Proof. destruct x as [[] [] [] [] [] [] [] []]; vm_compute; reflexivity. Qed.

Lemma passes_escape (s : string) :
  replace_all "'" "&#039;"
    (replace_all quote "&quot;"
       (replace_all ">" "&gt;"
          (replace_all "<" "&lt;"
             (replace_all "&" "&amp;" s))))
  = escape s.
Proof.
  induction s as [|x s IH]; [done|].
  change (String x s) with (String x "" ++ s).
  rewrite !replace_all_app, passes_char, IH. done.
Qed.

(** X23.  The five replacements in a row escape each character of the input
    once: no pass touches what an earlier pass wrote. *)
Theorem sanitizeString_escapes_each_character_once (input : string) :
  sanitizeString input = escape input.
Proof.
  unfold sanitizeString. case_bool_decide as Hempty; [by subst|].
  apply passes_escape.
Qed.

Lemma escape_char_safe (x : ascii) :
  chars_all (λ c, negb (Js.includes "<>'" (String c "") || Ascii.eqb c quote))
    (escape_char x) = true.
Proof. destruct x as [[] [] [] [] [] [] [] []]; vm_compute; reflexivity. Qed.

(** X24.  What [sanitizeString] returns has no [<], no [>] and no quote of
    either kind. *)
Theorem sanitizeString_leaves_no_markup (input : string) :
  free "<" (sanitizeString input) = true
  ∧ free ">" (sanitizeString input) = true
  ∧ free quote (sanitizeString input) = true
  ∧ free "'" (sanitizeString input) = true.
Proof.
  assert (chars_all (λ c, negb (Js.includes "<>'" (String c "") || Ascii.eqb c quote))
            (sanitizeString input) = true) as Hsafe.
  { unfold sanitizeString. case_bool_decide; [done|]. rewrite passes_escape.
    induction input as [|x s IH]; [done|].
    assert (s = "" ∨ s ≠ "") as [->|Hs] by (destruct s; eauto).
    - simpl. change (escape_char x ++ "") with (escape_char x ++ escape "").
      rewrite chars_all_app. by rewrite escape_char_safe.
    - simpl. rewrite chars_all_app, escape_char_safe. by apply IH. }
  unfold free.
  repeat split; (eapply chars_all_impl; [|exact Hsafe]);
    intros c; destruct c as [[] [] [] [] [] [] [] []]; vm_compute; done.
Qed.

(** X25.  [sanitizeUrl] returns the URL or nothing, never a [javascript:] URL in
    any spelling of upper and lower case, and a [data:] URL only when it is
    a [data:image/] one. *)
Theorem sanitizeUrl_blocks_script_and_data_urls (url : string) :
  (sanitizeUrl url = "" ∨ sanitizeUrl url = url)
  ∧ starts_with_ci "javascript:" (sanitizeUrl url) = false
  ∧ (starts_with_ci "data:" (sanitizeUrl url) = true →
     starts_with_ci "data:image/" (sanitizeUrl url) = true).
Proof.
  unfold sanitizeUrl.
  assert ((("" : string) = "" ∨ ("" : string) = url)
          ∧ starts_with_ci "javascript:" "" = false
          ∧ (starts_with_ci "data:" "" = true → starts_with_ci "data:image/" "" = true))
    as Hnothing by (split; [by left|]; split; done).
  case_bool_decide; [done|].
  destruct (starts_with_ci "javascript:" url) eqn:Hjs; [done|].
  destruct (starts_with_ci "data:" url) eqn:Hdata;
    destruct (starts_with_ci "data:image/" url) eqn:Himage; simpl; try done.
  - split; [by right|]. by rewrite Hjs, Himage.
  - split; [by right|]. by rewrite Hjs, Hdata.
  - split; [by right|]. by rewrite Hjs, Hdata.
Qed.

(** X26.  The checks look at the very first character: a URL that begins with
    anything but the letters [j] and [d], a space for one, is returned as
    it is, whatever follows. *)
Theorem sanitizeUrl_passes_behind_another_first_character (c : ascii) (url : string) :
  lower c ≠ "j"%char → lower c ≠ "d"%char →
  sanitizeUrl (String c url) = String c url.
Proof.
  intros Hj Hd. unfold sanitizeUrl, starts_with_ci.
  rewrite bool_decide_eq_false_2 by done. cbn [lower_string String.prefix].
  destruct (ascii_dec "j" (lower c)) as [Heq|_]; [by subst|].
  destruct (ascii_dec "d" (lower c)) as [Heq|_]; [by subst|].
  done.
Qed.

End Sanitizers.

(** ** The further properties at concrete inputs *)

Section MoreWitnesses.

(** X1 at a concrete input. *)
Lemma issuer_touches_only_its_ledger_key_witness :
  ledger_unique_at Scenario.workspace Scenario.invitee
    (snd (fst (CreateInvitation.POST Samples.issuer_env
                 (Some (Scenario.create_body "member")) Scenario.db_pending))).
Proof.
  apply (proj2 (issuer_touches_only_its_ledger_key Samples.issuer_env
                  (Scenario.create_body "member") Scenario.db_pending));
    [reflexivity | vm_compute; lia].
Defined.

(** X2 at a concrete input. *)
Lemma issuer_mails_only_admitted_requests_witness :
  Js.truthy (Some Scenario.invitee) = true
  ∧ Js.truthy (Some Scenario.workspace) = true
  ∧ issuer_admits Samples.issuer_env Scenario.workspace Scenario.db_empty_ledger = true
  ∧ CreateInvitation.mail_targetLink Samples.mail_request = Scenario.link
  ∧ CreateInvitation.mail_email Samples.mail_request = Scenario.invitee.
Proof.
  pose (out := CreateInvitation.POST Samples.issuer_env (Some (Scenario.create_body "admin"))
                 Scenario.db_empty_ledger).
  apply (issuer_mails_only_admitted_requests Samples.issuer_env (Scenario.create_body "admin")
           Scenario.db_empty_ledger (snd (fst out)) (fst (fst out)) Samples.mail_request).
  vm_compute. reflexivity.
Defined.

(** X3 at a concrete input. *)
Lemma reissue_keeps_the_row_witness :
  Db.invitations_by_key Scenario.workspace Scenario.invitee
    (snd (fst (CreateInvitation.POST Samples.issuer_env
                 (Some (Scenario.create_body "member")) Scenario.db_pending)))
  = [ {| inv_id := 1;
         inv_workspace_id := Scenario.workspace;
         inv_email := Scenario.invitee;
         inv_role := "member";
         inv_status := "pending";
         inv_invited_by := "root-1";
         inv_accepted_at := None |} ].
Proof.
  apply (reissue_keeps_the_row Samples.issuer_env (Scenario.create_body "member")
           Scenario.db_pending Scenario.pending_invitation);
    [ reflexivity | reflexivity | repeat split; reflexivity | reflexivity | reflexivity ].
Defined.

(** X4 at a concrete input. *)
Lemma reconcile_failure_changes_nothing_witness :
  snd (ConfirmEmail.POST (Scenario.confirm_env Scenario.user_unconfirmed)
         Scenario.confirm_request Scenario.db_pending)
  = Scenario.db_pending.
Proof.
  apply (reconcile_failure_changes_nothing
           (Scenario.confirm_env Scenario.user_unconfirmed) Scenario.confirm_request
           Scenario.db_pending).
  vm_compute. discriminate.
Defined.

(** X5 at a concrete input. *)
Lemma reconcile_success_adds_the_invited_membership_witness :
  ∃ e uid inviteData,
    Scenario.confirm_request
    = Some {| ConfirmEmail.email := Some e; ConfirmEmail.userId := Some uid |}
    ∧ Db.invitations_by_email_status e "pending" Scenario.db_pending = [inviteData]
    ∧ workspace_members Samples.db_reconciled
      = (workspace_members Scenario.db_pending ++ [membership_of inviteData uid])%list
    ∧ Db.members_by_key (inv_workspace_id inviteData) uid Scenario.db_pending = []
    ∧ user_roles Samples.db_reconciled = user_roles Scenario.db_pending
    ∧ workspace_invitations Samples.db_reconciled =
      if ConfirmEmail.update_fault (Scenario.confirm_env Scenario.user_confirmed)
      then workspace_invitations Scenario.db_pending
      else Db.accept_row (ConfirmEmail.now (Scenario.confirm_env Scenario.user_confirmed))
             (inv_workspace_id inviteData) e <$> workspace_invitations Scenario.db_pending.
Proof.
  apply (reconcile_success_adds_the_invited_membership
           (Scenario.confirm_env Scenario.user_confirmed) Scenario.confirm_request
           Scenario.db_pending Samples.db_reconciled
           (Json 200 true "User added to workspace successfully"));
    [vm_compute; reflexivity | reflexivity].
Defined.

(** X6 at a concrete input. *)
Lemma reconcile_again_is_a_no_op_witness :
  ConfirmEmail.POST (Scenario.confirm_env Scenario.user_confirmed)
    Scenario.confirm_request Samples.db_reconciled
  = (Json 404 false "No pending invitation found", Samples.db_reconciled).
Proof.
  apply (reconcile_again_is_a_no_op
           (Scenario.confirm_env Scenario.user_confirmed)
           (Scenario.confirm_env Scenario.user_confirmed)
           Scenario.invitee "user-1" Scenario.user_confirmed
           ltac:(discriminate) eq_refl eq_refl
           Scenario.db_pending Samples.db_reconciled
           (Json 200 true "User added to workspace successfully"));
    [vm_compute; reflexivity | reflexivity | reflexivity].
Defined.

(** X8 at a concrete input. *)
Lemma provider_sweep_takes_the_role_from_the_url_witness :
  mem_user_id {| mem_workspace_id := "ws-1"; mem_user_id := "user-1"; mem_role := "member" |}
  = "user-1"
  ∧ mem_role {| mem_workspace_id := "ws-1"; mem_user_id := "user-1"; mem_role := "member" |}
    = Js.or_default
        (Uri.get "invite_role"
           (AuthContext.location_search (Scenario.auth_env Scenario.user_confirmed)))
        "member".
Proof.
  apply (provider_sweep_takes_the_role_from_the_url
           (Scenario.auth_env Scenario.user_confirmed) "user-1"
           Samples.ls_after_registration Scenario.db_pending).
  - vm_compute. apply list_elem_of_further, list_elem_of_here.
  - simpl. apply not_elem_of_cons. split; [discriminate|]. apply not_elem_of_nil.
Defined.

(** X9 at a concrete input. *)
Lemma provider_sweep_skips_a_member_witness :
  AuthContext.processPendingInvitations (Scenario.auth_env Scenario.user_confirmed)
    "admin-1" Samples.ls_after_registration Scenario.db_pending
  = (true, AuthContext.clear_flags Samples.ls_after_registration, Scenario.db_pending).
Proof.
  apply (provider_sweep_skips_a_member (Scenario.auth_env Scenario.user_confirmed)
           "admin-1" Scenario.workspace Samples.ls_after_registration Scenario.db_pending
           Scenario.admin_membership);
    [ discriminate | reflexivity | vm_compute; reflexivity | vm_compute; reflexivity
    | discriminate | reflexivity | reflexivity ].
Defined.

(** X10 at a concrete input. *)
Lemma login_after_acceptance_calls_the_reconciler_witness :
  let '(_, ls1, db1) :=
    AcceptInvitation.onFinish (Scenario.accept_env Scenario.user_unconfirmed)
      (Some {| AcceptInvitation.email := Scenario.invitee;
               AcceptInvitation.workspaceId := Scenario.workspace;
               AcceptInvitation.inviteRole := "admin";
               AcceptInvitation.workspaceName := "Research & Development" |})
      Scenario.accept_values ∅ Scenario.db_pending in
  LoginPage.onFinish (Scenario.login_env Scenario.user_confirmed)
    Scenario.login_values ls1 db1
  = (LoginPage.Redirect "/dashboard", LoginPage.clear_markers ls1,
     LoginPage.confirm (Scenario.login_env Scenario.user_confirmed)
       Scenario.login_values Scenario.user_confirmed db1).
Proof.
  apply (login_after_acceptance_calls_the_reconciler
           (Scenario.accept_env Scenario.user_unconfirmed)
           {| AcceptInvitation.email := Scenario.invitee;
              AcceptInvitation.workspaceId := Scenario.workspace;
              AcceptInvitation.inviteRole := "admin";
              AcceptInvitation.workspaceName := "Research & Development" |}
           Scenario.accept_values Scenario.user_unconfirmed
           (Scenario.login_env Scenario.user_confirmed) Scenario.login_values
           Scenario.user_confirmed ∅ Scenario.db_pending);
    [ reflexivity | reflexivity | discriminate | discriminate
    | rewrite lookup_empty; discriminate | discriminate | discriminate
    | reflexivity | reflexivity | reflexivity ].
Defined.

(** X11 at a concrete input. *)
Lemma mail_route_sends_the_link_of_the_issuer_witness :
  ∃ message,
    snd (SendInvitationEmail.POST Samples.mail_env
           (Some (SendInvitationEmail.of_issuer Samples.mail_request)))
    = Some message
    ∧ SendInvitationEmail.to message = Scenario.invitee
    ∧ SendInvitationEmail.text_plain message
      = ("You've been invited to join Research & Development as a admin"
           ++ ". Click the link to set up your password: " ++ Scenario.link)%string.
Proof.
  pose (out := CreateInvitation.POST Samples.issuer_env (Some (Scenario.create_body "admin"))
                 Scenario.db_empty_ledger).
  apply (mail_route_sends_the_link_of_the_issuer Samples.issuer_env Samples.mail_env
           (Scenario.create_body "admin") Scenario.db_empty_ledger
           (snd (fst out)) (fst (fst out)) Samples.mail_request).
  vm_compute. reflexivity.
Defined.

(** X12 at a concrete input. *)
Lemma mail_route_default_link_is_the_issuer_link_witness :
  SendInvitationEmail.default_link Samples.mail_env
    (SendInvitationEmail.of_issuer Samples.mail_request)
  = Scenario.link.
Proof.
  pose (out := CreateInvitation.POST Samples.issuer_env (Some (Scenario.create_body "admin"))
                 Scenario.db_empty_ledger).
  apply (mail_route_default_link_is_the_issuer_link Samples.issuer_env Samples.mail_env
           (Scenario.create_body "admin") Scenario.db_empty_ledger
           (snd (fst out)) (fst (fst out)) Samples.mail_request);
    [ reflexivity | vm_compute; reflexivity ].
Defined.

(** X14 at a concrete input. *)
Lemma acceptance_page_reads_the_link_back_witness :
  AcceptInvitation.extract (Uri.searchParams Scenario.link)
  = Some {| AcceptInvitation.email := Scenario.invitee;
            AcceptInvitation.workspaceId := Scenario.workspace;
            AcceptInvitation.inviteRole := "admin";
            AcceptInvitation.workspaceName := "Research & Development" |}.
Proof.
  apply (acceptance_page_reads_the_link_back Samples.issuer_env (Scenario.create_body "admin")
           (conj eq_refl eq_refl) eq_refl eq_refl eq_refl eq_refl).
Defined.

(** X15 at a concrete input. *)
Lemma removeMember_never_removes_a_hyphenated_id_witness :
  Uri.free "-" (mem_workspace_id Samples.short_member) = true
  ∧ Uri.free "-" (mem_user_id Samples.short_member) = true.
Proof.
  apply (removeMember_never_removes_a_hyphenated_id false "ws1-u1" Samples.db_short).
  - apply list_elem_of_here.
  - vm_compute. apply not_elem_of_cons. split; [discriminate|]. apply not_elem_of_nil.
Defined.

(** X16 at a concrete input. *)
Lemma removeMember_leaves_a_uuid_store_unchanged_witness :
  MembersContext.removeMember false (MembersContext.composite_id Samples.uuid_member)
    Samples.db_uuid
  = (true, Samples.db_uuid).
Proof.
  apply (removeMember_leaves_a_uuid_store_unchanged false
           (MembersContext.composite_id Samples.uuid_member) Samples.db_uuid).
  intros m Hin. apply list_elem_of_singleton in Hin. subst m. by left.
Defined.

(** X17 at a concrete input. *)
Lemma inviteMember_invites_as_member_witness :
  ∃ reply db',
    MembersContext.inviteMember Samples.members_env Scenario.invitee Scenario.db_empty_ledger
    = (MembersContext.Answer reply, db')
    ∧ written Scenario.workspace Scenario.invitee "member" "root-1"
        Scenario.db_empty_ledger db'.
Proof.
  apply (inviteMember_invites_as_member Samples.members_env Scenario.invitee
           Scenario.workspace Scenario.db_empty_ledger);
    [ reflexivity | discriminate | discriminate | reflexivity
    | repeat split; reflexivity | vm_compute; lia | reflexivity ].
Defined.

(** X18 at a concrete input. *)
Lemma expired_invitation_is_not_reconciled_witness :
  let '(ok, db1) := WorkspaceContext.cancelInvitation false 1 Scenario.db_pending in
  let '(reply, db2) :=
    ConfirmEmail.POST (Scenario.confirm_env Scenario.user_confirmed)
      (Some {| ConfirmEmail.email := Some Scenario.invitee;
               ConfirmEmail.userId := Some "user-1" |}) db1 in
  ok = true ∧ status reply ≠ 200 ∧ db2 = db1
  ∧ workspace_members db2 = workspace_members Scenario.db_pending.
Proof.
  apply (expired_invitation_is_not_reconciled
           (Scenario.confirm_env Scenario.user_confirmed) Scenario.invitee
           (Some "user-1") 1 Scenario.db_pending).
  intros r Hin. apply list_elem_of_singleton in Hin. by subst r.
Defined.

(** X19 at a concrete input. *)
Lemma resendInvitation_revives_the_row_witness :
  let '(outcome, db') :=
    WorkspaceContext.resendInvitation Samples.workspace_env 1
      (snd (WorkspaceContext.cancelInvitation false 1 Scenario.db_pending)) in
  Db.invitations_by_key Scenario.workspace Scenario.invitee db'
  = [ {| inv_id := 1;
         inv_workspace_id := Scenario.workspace;
         inv_email := Scenario.invitee;
         inv_role := "admin";
         inv_status := "pending";
         inv_invited_by := "root-1";
         inv_accepted_at := None |} ]
  ∧ (outcome = WorkspaceContext.Resent
     ↔ CreateInvitation.MailSent = CreateInvitation.MailSent).
Proof.
  apply (resendInvitation_revives_the_row Samples.workspace_env 1
           (snd (WorkspaceContext.cancelInvitation false 1 Scenario.db_pending))
           Scenario.pending_invitation
           {| inv_id := 1;
              inv_workspace_id := Scenario.workspace;
              inv_email := Scenario.invitee;
              inv_role := "admin";
              inv_status := "expired";
              inv_invited_by := "root-1";
              inv_accepted_at := None |});
    [ reflexivity | discriminate | discriminate | reflexivity
    | repeat split; reflexivity | reflexivity | reflexivity ].
Defined.

(** X20 at a concrete input. *)
Lemma deleteWorkspace_removes_only_the_unflagged_target_witness :
  WorkspaceContext.ws_id Samples.research = Scenario.workspace
  ∧ fst (fst (WorkspaceContext.deleteWorkspace false Samples.workspaces Scenario.workspace
                Samples.workspaces))
    = WorkspaceContext.Deleted
  ∧ ∀ listed,
      WorkspaceContext.find_workspace Scenario.workspace Samples.workspaces = Some listed →
      WorkspaceContext.is_default listed = false
      ∧ WorkspaceContext.is_superadmin_workspace listed = false.
Proof.
  apply (deleteWorkspace_removes_only_the_unflagged_target false Samples.workspaces
           Samples.workspaces Scenario.workspace Samples.research).
  - apply list_elem_of_further, list_elem_of_here.
  - vm_compute. apply not_elem_of_cons. split; [discriminate|]. apply not_elem_of_nil.
Defined.

(** X26 at a concrete input. *)
Lemma sanitizeUrl_passes_behind_another_first_character_witness :
  Sanitize.sanitizeUrl " javascript:alert(1)" = " javascript:alert(1)".
Proof.
  apply (sanitizeUrl_passes_behind_another_first_character " " "javascript:alert(1)");
    discriminate.
Defined.

(** X13 at a concrete input. *)
Lemma mail_route_success_witness :
  success (fst (SendInvitationEmail.POST Samples.mail_env
                  (Some (SendInvitationEmail.of_issuer Samples.mail_request)))) = true.
Proof.
  apply (proj2 (proj2 (mail_route_success Samples.mail_env
                         (Some (SendInvitationEmail.of_issuer Samples.mail_request))))).
  split; [reflexivity|]. simpl. eexists. reflexivity.
Defined.

(** X21 at a concrete input. *)
Lemma validatePassword_accepts_witness :
  Validation.isValid (Validation.validatePassword "Secret123!") = true.
Proof.
  apply (proj2 (validatePassword_accepts "Secret123!")).
  split; [vm_compute; lia|]. repeat split; reflexivity.
Defined.

(** X22 at a concrete input. *)
Lemma validateUsername_accepts_witness :
  Uri.encodeURIComponent "ada_l-1" = "ada_l-1".
Proof.
  apply (proj2 (validateUsername_accepts "ada_l-1")). reflexivity.
Defined.

(** X25 at a concrete input. *)
Lemma sanitizeUrl_blocks_script_and_data_urls_witness :
  Sanitize.starts_with_ci "data:image/"
    (Sanitize.sanitizeUrl "DATA:image/png;base64,AAAA") = true.
Proof.
  apply (proj2 (proj2 (sanitizeUrl_blocks_script_and_data_urls
                         "DATA:image/png;base64,AAAA"))).
  reflexivity.
Defined.

End MoreWitnesses.
